(** * django-elfinder2: the connector (elfinder/connector.py)

    A shallow embedding of [ElFinderConnector]: the hash resolver
    [get_volume], the request validator [check_command_variables], the
    dispatcher [run_command] / [run] and the thirteen command handlers.

    Conventions.
    - Python [str] is [string]; the text is taken to be ASCII.
    - Python dicts whose iteration order is observable ([self.volumes]) are
      insertion-ordered association lists (CPython 3.7 and later); the
      others ([self.data], [self.response], node infos, contracts) are
      [gmap string _].
    - The volume drivers, [patoolib] and the logger are outside the
      connector: a handler is a tree of calls to them ([prog]), which
      [run_prog] executes against any implementation of that interface,
      recording every call with its answer.
    - A method of the connector is a function of [self] in the monad
      [M]: it may update [self], call out, return or raise; what it
      assigned before raising stays assigned.

    The first part of the file is the model, the second part
    ([Properties]) the statements about it. *)

From Stdlib Require Import String Ascii ZArith List Bool.
From stdpp Require Import base option list gmap strings.

Local Open Scope string_scope.
Local Open Scope list_scope.
Set Warnings "-register-all".
Set Default Proof Using "Type".

(** ** Python string operations used by the connector *)

Module Py.

(** [s.split(sep)] for a one-character separator: every occurrence
    splits; the result is never empty. *)
Fixpoint split (sep : ascii) (s : string) : list string :=
  match s with
  | EmptyString => [EmptyString]
  | String c s' =>
      if Ascii.eqb c sep then EmptyString :: split sep s'
      else match split sep s' with
           | [] => [String c EmptyString]
           | p :: ps => String c p :: ps
           end
  end.

(** [sub in s] on strings. *)
Fixpoint contains (sub s : string) : bool :=
  String.prefix sub s ||
  match s with
  | EmptyString => false
  | String _ s' => contains sub s'
  end.

Definition is_empty (s : string) : bool :=
  match s with EmptyString => true | _ => false end.

(** [s.replace(old, new)]: every non-overlapping occurrence, left to
    right. [skip] counts the characters of an occurrence still to be
    dropped. An empty [old] matches before every character and at the
    end. *)
Fixpoint replace_from (old new : string) (skip : nat) (s : string) : string :=
  match s with
  | EmptyString => if is_empty old then new else EmptyString
  | String c s' =>
      match skip with
      | S n => replace_from old new n s'
      | O =>
          if is_empty old then new +:+ String c (replace_from old new O s')
          else if String.prefix old s
               then new +:+ replace_from old new (String.length old - 1) s'
               else String c (replace_from old new O s')
      end
  end.

Definition replace (old new s : string) : string := replace_from old new 0 s.

Definition startswith (p s : string) : bool := String.prefix p s.

Fixpoint endswith_char (c : ascii) (s : string) : bool :=
  match s with
  | EmptyString => false
  | String d EmptyString => Ascii.eqb d c
  | String _ s' => endswith_char c s'
  end.

(** [os.path.join(a, b)] of posixpath, two arguments. *)
Definition path_join (a b : string) : string :=
  if startswith "/" b then b
  else if is_empty a || endswith_char "/" a then a +:+ b
  else a +:+ "/" +:+ b.

(** [l[-1]] and [l[0]]. *)
Definition last_item {A} (l : list A) : option A := last l.
Definition first_item {A} (l : list A) : option A := head l.

(** [repr(s)] of a [str]: single quotes unless the text has a single
    quote and no double quote; backslash, the quote, and control
    characters are escaped. *)
Definition dquote : ascii := ascii_of_nat 34.
Definition squote : ascii := ascii_of_nat 39.
Definition backslash : ascii := ascii_of_nat 92.

Definition hex_digit (n : nat) : ascii :=
  nth n (list_ascii_of_string "0123456789abcdef") "0"%char.

Definition repr_char (q c : ascii) : string :=
  let n := nat_of_ascii c in
  if Ascii.eqb c backslash then String backslash (String backslash EmptyString)
  else if Ascii.eqb c q then String backslash (String q EmptyString)
  else if Nat.eqb n 10 then String backslash "n"
  else if Nat.eqb n 13 then String backslash "r"
  else if Nat.eqb n 9 then String backslash "t"
  else if (n <? 32)%nat || Nat.eqb n 127
       then String backslash
              (String "x" (String (hex_digit (n / 16))
                             (String (hex_digit (n mod 16)) EmptyString)))
       else String c EmptyString.

Definition repr (s : string) : string :=
  let q := if contains (String squote EmptyString) s
              && negb (contains (String dquote EmptyString) s)
           then dquote else squote in
  String q (String.concat EmptyString
              (map (repr_char q) (list_ascii_of_string s)))
  +:+ String q EmptyString.

(** [repr(l)] of a list of [str]. *)
Definition repr_list (l : list string) : string :=
  "[" +:+ String.concat ", " (map repr l) +:+ "]".

(** [c] occurs in [s]. *)
Fixpoint occurs (c : ascii) (s : string) : bool :=
  match s with
  | EmptyString => false
  | String d s' => Ascii.eqb d c || occurs c s'
  end.

End Py.

(** ** Values, exceptions, volumes *)

(** JSON-like values exchanged with the volume drivers and placed into
    the response. *)
Inductive value : Type :=
| VNone
| VBool (b : bool)
| VInt (z : Z)
| VStr (s : string)
| VList (l : list value)
| VDict (d : gmap string value).

(** A node info is a mapping ([hash], [phash], display metadata). *)
Abbreviation node := (gmap string value).

(** What [run] stores in [self.data]: a [str], or the list that
    [getlist] returns. *)
Inductive param : Type :=
| PStr (s : string)
| PList (l : list string).

Definition param_value (p : param) : value :=
  match p with
  | PStr s => VStr s
  | PList l => VList (VStr <$> l)
  end.

(** [p == s] for a string literal [s]. *)
Definition param_is_str (p : param) (s : string) : bool :=
  match p with
  | PStr s' => String.eqb s' s
  | PList _ => false
  end.

(** [sub in p]: substring of a [str], member of a list. *)
Definition param_contains (sub : string) (p : param) : bool :=
  match p with
  | PStr s => Py.contains sub s
  | PList l => existsb (String.eqb sub) l
  end.

(** [for x in p]: the elements of a list, the characters of a [str]. *)
Definition param_iter (p : param) : list string :=
  match p with
  | PStr s => (fun c => String c EmptyString) <$> list_ascii_of_string s
  | PList l => l
  end.

(** [str.format] of one argument. *)
Definition param_format (p : param) : string :=
  match p with
  | PStr s => s
  | PList l => Py.repr_list l
  end.

(** The exceptions the connector can see; all derive from [Exception].
    [Other] is whatever a driver or [patoolib] raises, with its class
    name and its text. *)
Inductive exn : Type :=
| Exception_ (msg : string)
| KeyError (key : string)
| AttributeError (msg : string)
| TypeError (msg : string)
| UnboundLocalError (name : string)
| StopIteration
| IndexError (msg : string)
| Other (cls msg : string).

(** ['%s' % e] *)
Definition exn_str (e : exn) : string :=
  match e with
  | Exception_ msg => msg
  | KeyError key => Py.repr key
  | AttributeError msg => msg
  | TypeError msg => msg
  | UnboundLocalError name =>
      "local variable '" +:+ name +:+ "' referenced before assignment"
  | StopIteration => ""
  | IndexError msg => msg
  | Other _ msg => msg
  end.

(** Modelled from the spec: the volume driver classes live in
    [elfinder/volume_drivers], outside the connector's file. What the
    connector uses of a mounted volume object, besides calling it: its
    identity, the result of [get_volume_id()], and whether its class
    derives from [FileSystemVolumeDriver]. Drivers do not override
    [==]: two volumes are equal when they are the same object. *)
Record volume : Type := Volume {
  vol_oid : nat;
  vol_id : string;
  vol_is_fs : bool;
}.

Definition volume_ne (a b : volume) : bool := negb (Nat.eqb (vol_oid a) (vol_oid b)).

(** Insertion-ordered dict with string keys. *)

Module ODict.
Section ODict.
Context {V : Type}.

Fixpoint get (k : string) (d : list (string * V)) : option V :=
  match d with
  | [] => None
  | (k', v) :: d' => if String.eqb k' k then Some v else get k d'
  end.

(** [d[k] = v]: an existing key keeps its position. *)
Fixpoint set (k : string) (v : V) (d : list (string * V)) : list (string * V) :=
  match d with
  | [] => [(k, v)]
  | (k', v') :: d' =>
      if String.eqb k' k then (k, v) :: d' else (k', v') :: set k v d'
  end.

Definition keys (d : list (string * V)) : list string := fst <$> d.
Definition values (d : list (string * V)) : list V := snd <$> d.
End ODict.
End ODict.

(** The transport request: method, the two parameter sources (Django
    [QueryDict]: every key has a list of values), uploaded files. *)
Record http_request : Type := Request {
  method : string;
  GET : gmap string (list string);
  POST : gmap string (list string);
  FILES : value;
}.

(** ** Calls out of the connector *)

(** What a call comes back with. *)
Inductive answer (X : Type) : Type :=
| Raised (e : exn)
| Returned (x : X).
Arguments Raised {X} e.
Arguments Returned {X} x.

(** Modelled from the spec: the volume driver interface (section 6 of
    the specification; the drivers are not in the connector's file),
    each method with the type of its result. [get_tree] is called with
    and without its two flags, which default to false. *)
Inductive call : Type -> Type :=
| get_info (target : value) : call node
| get_tree (target : value) (ancestors siblings : bool) : call (list node)
| list_ (target : value) : call value
| mkdir (name : value) (target : value) : call value
| mkfile (name : value) (target : value) : call value
| rename (name : value) (target : value) : call (gmap string value)
| paste (targets source dest : value) (cut : bool) : call (gmap string value)
| remove (target : value) : call value
| upload (files : value) (parent : value) : call (gmap string value)
| _find_path (target : value) : call (option string)
| read_file_view (req : http_request) (target : value) : call value.

(** Everything the connector calls: a method of a volume,
    [patoolib.create_archive], [patoolib.extract_archive],
    [logger.exception]. *)
Inductive event : Type -> Type :=
| on_volume (v : volume) {X : Type} (c : call X) : event X
| create_archive (archive : string) (files : list (option string)) : event unit
| extract_archive (archive : string) (outdir : string) : event unit
| logger_exception (e : exn) : event unit.

(** A program: a result, or a call and what to do with its answer. *)
Inductive prog (R : Type) : Type :=
| Ret (r : R)
| Vis {X : Type} (e : event X) (k : answer X -> prog R).
Arguments Ret {R} r.
Arguments Vis {R X} e k.

(** One executed call. *)
Inductive entry : Type :=
| Entry {X : Type} (e : event X) (a : answer X).

Definition entry_returned (t : entry) : bool :=
  match t with
  | Entry _ (Returned _) => true
  | Entry _ (Raised _) => false
  end.

(** Executing a program against an implementation [step] of the outside
    world with state [W]. *)

Section Run.
Context {W : Type} (step : forall X : Type, event X -> W -> answer X * W).

Fixpoint run_prog {R : Type} (p : prog R) (w : W) : R * W * list entry :=
  match p with
  | Ret r => (r, w, [])
  | Vis e k =>
      let '(a, w') := step _ e w in
      let '(r, w'', tr) := run_prog (k a) w' in
      (r, w'', Entry e a :: tr)
  end.
End Run.

Fixpoint prog_bind {R S : Type} (p : prog R) (f : R -> prog S) : prog S :=
  match p with
  | Ret r => f r
  | Vis e k => Vis e (fun a => prog_bind (k a) f)
  end.

(** ** The connector object and its monad *)

Record connector : Type := Connector {
  httpResponse : gmap string value;
  httpStatusCode : Z;
  httpHeader : gmap string string;
  data : gmap string param;
  response : gmap string value;
  return_view : value;
  is_return_view : bool;
  volumes : list (string * volume);
  (** [self.request] does not exist before [run] sets it *)
  request : option http_request;
}.

Definition with_response (f : gmap string value -> gmap string value)
  (self : connector) : connector :=
  {| httpResponse := httpResponse self; httpStatusCode := httpStatusCode self;
     httpHeader := httpHeader self; data := data self;
     response := f (response self); return_view := return_view self;
     is_return_view := is_return_view self; volumes := volumes self;
     request := request self |}.

Definition with_data (f : gmap string param -> gmap string param)
  (self : connector) : connector :=
  {| httpResponse := httpResponse self; httpStatusCode := httpStatusCode self;
     httpHeader := httpHeader self; data := f (data self);
     response := response self; return_view := return_view self;
     is_return_view := is_return_view self; volumes := volumes self;
     request := request self |}.

Definition with_return_view (v : value) (self : connector) : connector :=
  {| httpResponse := httpResponse self; httpStatusCode := httpStatusCode self;
     httpHeader := httpHeader self; data := data self;
     response := response self; return_view := v;
     is_return_view := true; volumes := volumes self;
     request := request self |}.

Definition with_request (r : http_request) (self : connector) : connector :=
  {| httpResponse := httpResponse self; httpStatusCode := httpStatusCode self;
     httpHeader := httpHeader self; data := data self;
     response := response self; return_view := return_view self;
     is_return_view := is_return_view self; volumes := volumes self;
     request := Some r |}.

Definition with_httpResponse (r : gmap string value) (self : connector) : connector :=
  {| httpResponse := r; httpStatusCode := httpStatusCode self;
     httpHeader := httpHeader self; data := data self;
     response := response self; return_view := return_view self;
     is_return_view := is_return_view self; volumes := volumes self;
     request := request self |}.

(** [__init__]: the registry is filled in the order the volumes are
    given, keyed by [get_volume_id()]. *)
Definition __init__ (vols : list volume) : connector :=
  {| httpResponse := ∅; httpStatusCode := 200;
     httpHeader := {[ "Content-type" := "application/json" ]};
     data := ∅; response := ∅; return_view := VNone;
     is_return_view := false;
     volumes := fold_left (fun d v => ODict.set (vol_id v) v d) vols [];
     request := None |}.

Inductive outcome (A : Type) : Type :=
| Ok (a : A)
| Exc (e : exn).
Arguments Ok {A} a.
Arguments Exc {A} e.

(** A method of the connector: reads and updates [self], calls out,
    returns or raises. What it did to [self] before raising stays. *)
Definition M (A : Type) : Type := connector -> prog (outcome A * connector).

Definition ret {A} (a : A) : M A := fun self => Ret (Ok a, self).
Definition raise {A} (e : exn) : M A := fun self => Ret (Exc e, self).
Definition bind {A B} (m : M A) (f : A -> M B) : M B :=
  fun self =>
    prog_bind (m self)
      (fun r => match r with
                | (Ok a, self') => f a self'
                | (Exc e, self') => Ret (Exc e, self')
                end).
Definition get_self : M connector := fun self => Ret (Ok self, self).
Definition update_self (f : connector -> connector) : M unit :=
  fun self => Ret (Ok tt, f self).
Definition lift {A} (o : outcome A) : M A := fun self => Ret (o, self).

(** A call out of the connector; an exception raised there propagates. *)
Definition perform {X} (e : event X) : M X :=
  fun self =>
    Vis e (fun a => match a with
                    | Raised ex => Ret (Exc ex, self)
                    | Returned x => Ret (Ok x, self)
                    end).

(** [try: m  except Exception as e: h e] *)
Definition try_except {A} (m : M A) (h : exn -> M A) : M A :=
  fun self =>
    prog_bind (m self)
      (fun r => match r with
                | (Ok a, self') => Ret (Ok a, self')
                | (Exc e, self') => h e self'
                end).

Instance M_ret : MRet M := @ret.
Instance M_bind : MBind M := fun A B f m => bind m f.

(** [for x in l: body x], with the loop's local variables [S]. *)
Fixpoint for_each {A S : Type} (l : list A) (body : A -> S -> M S) (s : S) : M S :=
  match l with
  | [] => mret s
  | x :: l' => s' ← body x s; for_each l' body s'
  end.

Definition set_response (k : string) (v : value) : M unit :=
  update_self (with_response <[ k := v ]>).

(** [self.response.update(d)] *)
Definition update_response (d : gmap string value) : M unit :=
  update_self (with_response (fun r => d ∪ r)).

(** [self.data[k]] *)
Definition data_item (k : string) : M param :=
  self ← get_self;
  match data self !! k with
  | Some p => mret p
  | None => raise (KeyError k)
  end.

Definition on {X} (v : volume) (c : call X) : M X := perform (on_volume v c).

(** ** The methods of [ElFinderConnector] *)

Definition get_commands : gmap string (string * gmap string bool) :=
  list_to_map
    [ ("open", ("__open", {[ "target" := true ]}));
      ("tree", ("__tree", {[ "target" := true ]}));
      ("file", ("__file", {[ "target" := true ]}));
      ("parents", ("__parents", {[ "target" := true ]}));
      ("mkdir", ("__mkdir", <[ "target" := true ]> {[ "name" := true ]}));
      ("mkfile", ("__mkfile", <[ "target" := true ]> {[ "name" := true ]}));
      ("rename", ("__rename", <[ "target" := true ]> {[ "name" := true ]}));
      ("ls", ("__list", {[ "target" := true ]}));
      ("paste", ("__paste", <[ "targets[]" := true ]> (<[ "src" := true ]>
                              (<[ "dst" := true ]> {[ "cut" := true ]}))));
      ("rm", ("__remove", {[ "targets[]" := true ]}));
      ("upload", ("__upload", {[ "target" := true ]}));
      ("extract", ("__extract", {[ "target" := true ]}));
      ("archive", ("__archive", <[ "target" := true ]> (<[ "targets[]" := true ]>
                                  (<[ "name" := true ]> {[ "type" := true ]})))) ].

Definition get_init_params : gmap string value :=
  list_to_map
    [ ("api", VStr "2.0");
      ("uplMaxSize", VStr "128M");
      ("options",
        VDict (list_to_map
          [ ("separator", VStr "/");
            ("disabled", VList []);
            ("archivers",
              VDict (list_to_map
                [ ("create", VList [VStr "application/zip"]);
                  ("extract", VList [VStr "application/rar";
                                     VStr "application/zip"]) ]));
            ("copyOverwrite", VInt 1) ])) ].

Definition get_allowed_http_params : list string :=
  [ "cmd"; "target"; "targets[]"; "current"; "tree";
    "name"; "content"; "src"; "dst"; "cut"; "init";
    "type"; "width"; "height"; "upload[]"; "dirs[]" ].

(** The name of a value's class, as it shows in an [AttributeError]. *)
Definition type_name (v : value) : string :=
  match v with
  | VNone => "NoneType"
  | VBool _ => "bool"
  | VInt _ => "int"
  | VStr _ => "str"
  | VList _ => "list"
  | VDict _ => "dict"
  end.

(** [get_volume]: [hash.split('_')] must have exactly two parts; the
    first one is looked up in the registry. The second part is dropped:
    only the volume is returned. *)
Definition get_volume (self : connector) (hash : value) : outcome volume :=
  match hash with
  | VStr s =>
      match Py.split "_" s with
      | [volume_id; target] =>
          match ODict.get volume_id (volumes self) with
          | Some v => Ok v
          | None => Exc (KeyError volume_id)
          end
      | _ => Exc (Exception_ ("Invalid target hash: " +:+ s))
      end
  | _ => Exc (AttributeError
                ("'" +:+ type_name hash +:+ "' object has no attribute 'split'"))
  end.

Definition self_get_volume (hash : value) : M volume :=
  self ← get_self; lift (get_volume self hash).

(** [check_command_variables]: the loop over the contract's entries. *)
Fixpoint check_fields (d : gmap string param) (fields : list (string * bool)) : bool :=
  match fields with
  | [] => true
  | (field, flag) :: rest =>
      if flag && negb (bool_decide (is_Some (d !! field))) then false
      else if negb flag && bool_decide (is_Some (d !! field)) then false
      else check_fields d rest
  end.

Definition check_command_variables (self : connector)
  (command_variables : gmap string bool) : bool :=
  check_fields (data self) (map_to_list command_variables).

Definition __parents : M unit :=
  target ← data_item "target";
  volume ← self_get_volume (param_value target);
  tree ← on volume (get_tree (param_value target) true true);
  set_response "tree" (VList (VDict <$> tree)).

Definition __tree : M unit :=
  target ← data_item "target";
  volume ← self_get_volume (param_value target);
  tree ← on volume (get_tree (param_value target) false false);
  set_response "tree" (VList (VDict <$> tree)).

Definition __file : M unit :=
  target ← data_item "target";
  volume ← self_get_volume (param_value target);
  self ← get_self;
  req ← match request self with
        | Some r => mret r
        | None => raise (AttributeError
                    "'ElFinderConnector' object has no attribute 'request'")
        end;
  view ← on volume (read_file_view req (param_value target));
  update_self (with_return_view view).

Definition __open : M unit :=
  self ← get_self;
  let inc := match data self !! "tree" with
             | Some p => param_is_str p "1"
             | None => false
             end in
  target ← data_item "target";
  (if param_is_str target ""
   then
     volume ← match ODict.values (volumes self) with
              | v :: _ => mret v
              | [] => raise StopIteration
              end;
     cwd ← on volume (get_info (VStr ""));
     set_response "cwd" (VDict cwd);;
     for_each (ODict.keys (volumes self))
       (fun volume_id (_ : unit) =>
          volume ← match ODict.get volume_id (volumes self) with
                   | Some v => mret v
                   | None => raise (KeyError volume_id)
                   end;
          files ← on volume (get_tree (VStr "") inc inc);
          set_response "files" (VList (VDict <$> files)))
       tt
   else
     volume ← self_get_volume (param_value target);
     cwd ← on volume (get_info (param_value target));
     set_response "cwd" (VDict cwd);;
     files ← on volume (get_tree (param_value target) inc inc);
     set_response "files" (VList (VDict <$> files)));;
  if bool_decide (is_Some (data self !! "init"))
  then update_response get_init_params
  else mret tt.

Definition __mkdir : M unit :=
  target ← data_item "target";
  volume ← self_get_volume (param_value target);
  name ← data_item "name";
  added ← on volume (mkdir (param_value name) (param_value target));
  set_response "added" (VList [added]).

Definition __mkfile : M unit :=
  target ← data_item "target";
  volume ← self_get_volume (param_value target);
  name ← data_item "name";
  added ← on volume (mkfile (param_value name) (param_value target));
  set_response "added" (VList [added]).

Definition __rename : M unit :=
  target ← data_item "target";
  volume ← self_get_volume (param_value target);
  name ← data_item "name";
  r ← on volume (rename (param_value name) (param_value target));
  update_response r.

Definition __list : M unit :=
  target ← data_item "target";
  volume ← self_get_volume (param_value target);
  l ← on volume (list_ (param_value target));
  set_response "list" l.

Definition __paste : M unit :=
  targets ← data_item "targets[]";
  source ← data_item "src";
  dest ← data_item "dst";
  cut_ ← data_item "cut";
  let cut := param_is_str cut_ "1" in
  source_volume ← self_get_volume (param_value source);
  dest_volume ← self_get_volume (param_value dest);
  (if volume_ne source_volume dest_volume
   then raise (Exception_ "Moving between volumes is not supported.")
   else mret tt);;
  r ← on dest_volume
        (paste (param_value targets) (param_value source) (param_value dest) cut);
  update_response r.

(** The MIME-type-to-extension table of [__archive]. *)
Definition type_map : gmap string string :=
  <[ "application/x-tar" := "tar" ]> {[ "application/zip" := "zip" ]}.

(** [type_map[type]] *)
Definition type_map_item (type : param) : M string :=
  match type with
  | PStr s =>
      match type_map !! s with
      | Some ext => mret ext
      | None => raise (KeyError s)
      end
  | PList _ => raise (TypeError "unhashable type: 'list'")
  end.

(** A local variable that may not have been assigned yet. *)
Definition local {A} (name : string) (x : option A) : M A :=
  match x with
  | Some a => mret a
  | None => raise (UnboundLocalError name)
  end.

(** [node['hash']] *)
Definition node_hash (n : node) : M value :=
  match n !! "hash" with
  | Some h => mret h
  | None => raise (KeyError "hash")
  end.

(** [if abs_path:] *)
Definition truthy (p : option string) : bool :=
  match p with
  | Some s => negb (Py.is_empty s)
  | None => false
  end.

(** [os.path.join(p, name)] with [p] possibly [None]. *)
Definition os_path_join (p : option string) (name : string) : M string :=
  match p with
  | Some s => mret (Py.path_join s name)
  | None => raise (TypeError
              "expected str, bytes or os.PathLike object, not NoneType")
  end.

(** [p == s] for the result of [_find_path]. *)
Definition path_is (p : option string) (s : string) : bool :=
  match p with
  | Some s' => String.eqb s' s
  | None => false
  end.

(** The body of [for trg in targets] in [__archive]. *)
Definition archive_collect (source_volume : volume) (trg : string)
  (files : list (option string)) : M (list (option string)) :=
  orig_abs_path ← on source_volume (_find_path (VStr trg));
  mret (files ++ [orig_abs_path]).

(** The body of the re-scan loop of [__archive]; [zipfile] and [added]
    are assigned only under [if abs_path:]. *)
Definition archive_scan (source_volume : volume) (zipfile : option string)
  (n : node) (added : option (list node)) : M (option (list node)) :=
  h ← node_hash n;
  p ← on source_volume (_find_path h);
  z ← local "zipfile" zipfile;
  if path_is p z
  then (l ← local "added" added; mret (Some (l ++ [n])))
  else mret added.

Definition __archive : M unit :=
  target ← data_item "target";
  targets ← data_item "targets[]";
  name ← data_item "name";
  type ← data_item "type";
  source_volume ← self_get_volume (param_value target);
  abs_path ← on source_volume (_find_path (param_value target));
  '(zipfile, added) ←
    (if truthy abs_path
     then
       ext ← type_map_item type;
       zipfile ← os_path_join abs_path (param_format name +:+ "." +:+ ext);
       files ← for_each (param_iter targets) (archive_collect source_volume) [];
       perform (create_archive zipfile files);;
       mret (Some zipfile, Some [])
     else mret (None, None)) : M (option string * option (list node));
  tree ← on source_volume (get_tree (param_value target) false false);
  added ← for_each tree (archive_scan source_volume zipfile) added;
  l ← local "added" added;
  update_response {[ "added" := VList (VDict <$> l) ]}.

(** [n.get('phash')] *)
Definition node_phash (n : node) : value := default VNone (n !! "phash").

(** [path.split('/')[-1].split('.')[0]]: the last component of the
    path, up to its first dot. *)
Definition file_stem (path : string) : option string :=
  basename ← Py.last_item (Py.split "/" path);
  Py.first_item (Py.split "." basename).

(** The body of the re-scan loop of [__extract]. *)
Definition extract_scan (source_volume : volume) (folder_path : string)
  (n : node) (added : list node) : M (list node) :=
  h ← node_hash n;
  p ← on source_volume (_find_path h);
  if path_is p folder_path
  then mret (added ++ [n])
  else mret added.

Definition __extract : M unit :=
  target ← data_item "target";
  source_volume ← self_get_volume (param_value target);
  archive_file ← on source_volume (get_info (param_value target));
  archive_file_path ← on source_volume (_find_path (param_value target));
  path ← match archive_file_path with
         | Some s => mret s
         | None => raise (AttributeError
                     "'NoneType' object has no attribute 'split'")
         end;
  archive_name ← match file_stem path with
                 | Some a => mret a
                 | None => raise (IndexError "list index out of range")
                 end;
  parent_path ← on source_volume (_find_path (node_phash archive_file));
  folder_path ← os_path_join parent_path archive_name;
  parent_volume ← self_get_volume (node_phash archive_file);
  on parent_volume (mkdir (VStr archive_name) (node_phash archive_file));;
  perform (extract_archive path folder_path);;
  tree ← on source_volume (get_tree (node_phash archive_file) false false);
  added ← for_each tree (extract_scan source_volume folder_path) [];
  update_response {[ "added" := VList (VDict <$> added) ]}.

(** [self.response['removed'].append(x)]: the list object is fetched
    before [x] is computed. *)
Definition removed_list : M (list value) :=
  self ← get_self;
  match response self !! "removed" with
  | Some (VList l) => mret l
  | Some v => raise (AttributeError
                ("'" +:+ type_name v +:+ "' object has no attribute 'append'"))
  | None => raise (KeyError "removed")
  end.

(** The body of [for target in targets] in [__remove]. *)
Definition remove_body (target : string) (_ : unit) : M unit :=
  volume ← self_get_volume (VStr target);
  l ← removed_list;
  r ← on volume (remove (VStr target));
  set_response "removed" (VList (l ++ [r])).

Definition __remove : M unit :=
  targets ← data_item "targets[]";
  set_response "removed" (VList []);;
  for_each (param_iter targets) remove_body tt.

Definition __upload : M unit :=
  parent ← data_item "target";
  volume ← self_get_volume (param_value parent);
  self ← get_self;
  req ← match request self with
        | Some r => mret r
        | None => raise (AttributeError
                    "'ElFinderConnector' object has no attribute 'request'")
        end;
  r ← on volume (upload (FILES req) (param_value parent));
  update_response r.

(** [getattr(self, '_ElFinderConnector' + func_name, None)]: the private
    methods of the class. *)
Definition getattr_method (func_name : string) : option (M unit) :=
  if String.eqb func_name "__open" then Some __open
  else if String.eqb func_name "__tree" then Some __tree
  else if String.eqb func_name "__file" then Some __file
  else if String.eqb func_name "__parents" then Some __parents
  else if String.eqb func_name "__mkdir" then Some __mkdir
  else if String.eqb func_name "__mkfile" then Some __mkfile
  else if String.eqb func_name "__rename" then Some __rename
  else if String.eqb func_name "__list" then Some __list
  else if String.eqb func_name "__paste" then Some __paste
  else if String.eqb func_name "__archive" then Some __archive
  else if String.eqb func_name "__extract" then Some __extract
  else if String.eqb func_name "__remove" then Some __remove
  else if String.eqb func_name "__upload" then Some __upload
  else None.

(** [logger.exception(e)]: the logging module swallows its own errors. *)
Definition log_exception (e : exn) : M unit :=
  fun self => Vis (logger_exception e) (fun _ => Ret (Ok tt, self)).

Section Dispatcher.

(** [settings.ELFINDER_FS_DRIVER_ROOT] *)
Variable ELFINDER_FS_DRIVER_ROOT : string.

(** The loop of the [except] branch: the first volume whose id occurs
    in [self.data.get('target', '')] and whose class is a filesystem
    driver gets the root replaced in the message, and the loop stops. *)
Fixpoint redact (target : param) (items : list (string * volume))
  (msg : string) : string :=
  match items with
  | [] => msg
  | (vol_prefix, vol) :: rest =>
      if param_contains vol_prefix target && vol_is_fs vol
      then Py.replace ELFINDER_FS_DRIVER_ROOT "..." msg
      else redact target rest msg
  end.

Definition run_command (func_name : string)
  (command_variables : gmap string bool) : M unit :=
  self ← get_self;
  if negb (check_command_variables self command_variables)
  then set_response "error" (VStr "Invalid arguments")
  else
    match getattr_method func_name with
    | None => set_response "error" (VStr "Command failed")
    | Some func =>
        try_except func
          (fun e =>
             let msg := exn_str e in
             self ← get_self;
             let msg := redact (default (PStr "") (data self !! "target"))
                          (volumes self) msg in
             set_response "error" (VStr msg);;
             log_exception e)
    end.

(** Django's [MultiValueDict]: [d[k]] is the last value of the key, or
    the empty list when the key has no value at all. *)
Definition querydict_item (l : list string) : param :=
  match last l with
  | Some s => PStr s
  | None => PList []
  end.

(** The body of the copy loop of [run] for one allowed field. *)
Definition copy_field (data_source : option (gmap string (list string)))
  (field : string) (_ : unit) : M unit :=
  ds ← local "data_source" data_source;
  match ds !! field with
  | None => mret tt
  | Some l =>
      if String.eqb field "targets[]"
      then update_self (with_data <[ field := PList l ]>)
      else if String.eqb field "dirs[]"
      then match l with
           | x :: _ => update_self (with_data <[ "name" := PStr x ]>)
           | [] => raise (IndexError "list index out of range")
           end
      else update_self (with_data <[ field := querydict_item l ]>)
  end.

Definition run (req : http_request)
  : M (Z * gmap string string * gmap string value) :=
  update_self (with_request req);;
  let data_source :=
    if String.eqb (method req) "POST" then Some (POST req)
    else if String.eqb (method req) "GET" then Some (GET req)
    else None in
  for_each get_allowed_http_params (copy_field data_source) tt;;
  self ← get_self;
  match data self !! "cmd" with
  | Some (PStr c) =>
      match get_commands !! c with
      | Some cmd => run_command cmd.1 cmd.2
      | None => set_response "error" (VStr "Unknown command")
      end
  | Some (PList _) => raise (TypeError "unhashable type: 'list'")
  | None => set_response "error" (VStr "No command specified")
  end;;
  self ← get_self;
  update_self (with_httpResponse (response self));;
  mret (httpStatusCode self, httpHeader self, response self).

End Dispatcher.

(** ** Executions and what is observed of them *)

Section Exec.
Context {W : Type} (step : forall X : Type, event X -> W -> answer X * W).

(** Running a method on [self] in the world [w]: how it ended, the
    connector and the world afterwards, and the calls made. *)
Definition exec {A} (m : M A) (self : connector) (w : W)
  : outcome A * connector * W * list entry :=
  run_prog step (m self) w.

(** What follows a first part that made the calls [tr]. *)
Definition after {A} (tr : list entry)
  (r : outcome A * connector * W * list entry)
  : outcome A * connector * W * list entry :=
  match r with
  | (x, tr') => (x, tr ++ tr')
  end.

End Exec.

(** ** Reconciliation by path

    The nodes of [tree] whose resolved path, [paths] in the same order,
    is [z]: what the re-scan loops of [__archive] and [__extract] keep. *)
Fixpoint matching (z : string) (tree : list node) (paths : list (option string))
  : list node :=
  match tree, paths with
  | n :: tree', p :: paths' =>
      if bool_decide (p = Some z)
      then n :: matching z tree' paths' else matching z tree' paths'
  | _, _ => []
  end.

(** A call of [mkdir] on some volume. *)
Definition is_mkdir (t : entry) : bool :=
  match t with
  | Entry e _ =>
      match e with
      | on_volume _ c => match c with mkdir _ _ => true | _ => false end
      | _ => false
      end
  end.

(** ** What the statements are written with *)

(** The record of [volume.remove(target)] having returned [r], for a
    target paired with its volume. *)
Definition remove_entry (tv : string * volume) (r : value) : entry :=
  Entry (on_volume tv.2 (remove (VStr tv.1))) (Returned r).

(** The record of [v._find_path(h)] having returned [p]. *)
Definition find_entry (v : volume) (h : value) (p : option string) : entry :=
  Entry (on_volume v (_find_path h)) (Returned p).

(** The first component of [hash.split('_')]. *)
Definition volume_segment (s : string) : string :=
  default EmptyString (head (Py.split "_" s)).

(** The separator of the identifiers, as a [str]. *)
Definition sep : string := "_".





(** * A small filesystem volume, to run the connector on

    An implementation of the driver interface for the examples; it
    stands in for a driver, it is not the repository's [fs_driver].
    One flat directory per volume: the volume [v] is rooted at
    [/srv/v]; the hash [v_root] is its root and [v_name] the entry
    [/srv/v/name]. The world is the list of paths that exist. *)

Module Demo.

Definition world : Type := list string.

Definition root (v : volume) : string := "/srv/" +:+ vol_id v.

Definition exists_path (p : string) (w : world) : bool :=
  existsb (String.eqb p) w.

(** The name of [p] inside the root of [v], if it lies there. *)
Definition local_name (v : volume) (p : string) : option string :=
  let r := root v +:+ "/" in
  if String.prefix r p
  then Some (String.substring (String.length r) (String.length p - String.length r) p)
  else None.

Definition path_of (v : volume) (t : value) (w : world) : option string :=
  match t with
  | VStr h =>
      match Py.split "_" h with
      | [_; name] =>
          if String.eqb name "root" then Some (root v)
          else if exists_path (root v +:+ "/" +:+ name) w
               then Some (root v +:+ "/" +:+ name) else None
      | _ => None
      end
  | _ => None
  end.

Definition info (v : volume) (name : string) : node :=
  <[ "hash" := VStr (vol_id v +:+ "_" +:+ name) ]>
    (<[ "phash" := VStr (vol_id v +:+ "_root") ]>
       {[ "name" := VStr name ]}).

Definition tree (v : volume) (w : world) : list node :=
  omap (fun p => info v <$> local_name v p) w.

Definition no_such (v : volume) (t : value) : exn :=
  Other "OSError"
    ("No such file or directory: " +:+ root v +:+ "/" +:+
     match t with VStr h => h | _ => "" end).

Definition on_call (v : volume) {X : Type} (c : call X) (w : world)
  : answer X * world :=
  match c in call X return answer X * world with
  | get_info t =>
      match t with
      | VStr "" => (Returned {[ "hash" := VStr (vol_id v +:+ "_root") ]}, w)
      | VStr h =>
          match Py.split "_" h with
          | [_; name] =>
              if String.eqb name "root"
              then (Returned {[ "hash" := VStr h ]}, w)
              else if exists_path (root v +:+ "/" +:+ name) w
                   then (Returned (info v name), w)
                   else (Raised (no_such v t), w)
          | _ => (Raised (no_such v t), w)
          end
      | _ => (Raised (no_such v t), w)
      end
  | get_tree t _ _ => (Returned (tree v w), w)
  | list_ t => (Returned (VList (VDict <$> tree v w)), w)
  | mkdir name t | mkfile name t =>
      match name with
      | VStr n => (Returned (VDict (info v n)), w ++ [root v +:+ "/" +:+ n])
      | _ => (Raised (Other "TypeError" "name must be str"), w)
      end
  | rename name t => (Returned ∅, w)
  | paste targets source dest cut => (Returned ∅, w)
  | remove t =>
      match path_of v t w with
      | Some p => (Returned t, filter (fun q => q ≠ p) w)
      | None => (Raised (no_such v t), w)
      end
  | upload files parent => (Returned ∅, w)
  | _find_path t => (Returned (path_of v t w), w)
  | read_file_view req t => (Returned VNone, w)
  end.

Definition step (X : Type) (e : event X) (w : world) : answer X * world :=
  match e in event X return answer X * world with
  | on_volume v c => on_call v c w
  | create_archive archive files => (Returned tt, w ++ [archive])
  | extract_archive archive outdir => (Returned tt, w)
  | logger_exception e => (Returned tt, w)
  end.

Definition A : volume := Volume 1 "A" true.
Definition B : volume := Volume 2 "B" true.

Definition files : world := ["/srv/A/file1.txt"; "/srv/B/notes.txt"].

(** A connector as [run] leaves [self.data] for the given parameters. *)
Definition connector_with (vols : list volume) (d : list (string * param))
  : connector :=
  with_data (fun _ => list_to_map d) (__init__ vols).

End Demo.

Module Scenario.
Import Demo.

(** [paste] from volume A to volume B, with [cut]. *)
Definition paste_across : connector :=
  connector_with [A; B]
    [ ("targets[]", PList ["A_file1.txt"]); ("src", PStr "A_root");
      ("dst", PStr "B_root"); ("cut", PStr "1") ].

(** [rm] of one entry of each volume. *)
Definition rm_both : connector :=
  connector_with [A; B] [ ("targets[]", PList ["A_file1.txt"; "B_notes.txt"]) ].

(** [open] with an empty target. *)
Definition open_root : connector :=
  connector_with [A; B] [ ("target", PStr "") ].

(** [archive] of [file1.txt] in the root of A, under [name]. *)
Definition archive_as (name : string) : connector :=
  connector_with [A; B]
    [ ("target", PStr "A_root"); ("targets[]", PList ["A_file1.txt"]);
      ("name", PStr name); ("type", PStr "application/zip") ].

(** [archive] into a target that has no path. *)
Definition archive_nowhere : connector :=
  connector_with [A; B]
    [ ("target", PStr "A_nothing"); ("targets[]", PList ["A_file1.txt"]);
      ("name", PStr "bundle"); ("type", PStr "application/zip") ].

(** [extract] of [bundle.zip] in the root of A. *)
Definition extract_bundle : connector :=
  connector_with [A; B] [ ("target", PStr "A_bundle.zip") ].

Definition with_bundle : world := files ++ ["/srv/A/bundle.zip"].

Definition file1 : node := info A "file1.txt".
Definition notes : node := info B "notes.txt".
Definition bundle : node := info A "bundle.zip".



(** A filesystem volume mounted under the empty id, and the request
    [rm] of an entry of it that is not there. *)
Definition unnamed : volume := Volume 3 "" true.

Definition rm_unnamed_request : http_request :=
  Request "GET" (<[ "cmd" := ["rm"] ]> {[ "targets[]" := ["_gone.txt"] ]}) ∅ VNone.

(** The runs the statements below are about. *)
Definition archived : outcome unit * connector * world * list entry :=
  exec step __archive (archive_as "bundle") files.

Definition extracted : outcome unit * connector * world * list entry :=
  exec step __extract extract_bundle with_bundle.

End Scenario.

(** * Properties *)

(** ** The string operations on examples *)

Example split_two : Py.split "_" "A_root" = ["A"; "root"].
Proof. reflexivity. Qed.
Example split_three : Py.split "_" "A_root_file1.txt" = ["A"; "root"; "file1.txt"].
Proof. reflexivity. Qed.
Example split_none : Py.split "_" "Aroot" = ["Aroot"].
Proof. reflexivity. Qed.
Example split_empty : Py.split "_" "" = [""].
Proof. reflexivity. Qed.
Example replace_all : Py.replace "/srv" "..." "/srv/a and /srv/b" = ".../a and .../b".
Proof. reflexivity. Qed.
Example replace_overlap : Py.replace "aa" "b" "aaaaa" = "bba".
Proof. reflexivity. Qed.
Example replace_empty_old : Py.replace "" "-" "abc" = "-a-b-c-".
Proof. reflexivity. Qed.
Example join_plain : Py.path_join "/a" "bundle.zip" = "/a/bundle.zip".
Proof. reflexivity. Qed.
Example join_slash : Py.path_join "/a/" "bundle.zip" = "/a/bundle.zip".
Proof. reflexivity. Qed.
Example join_absolute : Py.path_join "/a" "/x.zip" = "/x.zip".
Proof. reflexivity. Qed.
Example repr_plain : Py.repr "B" = "'B'".
Proof. reflexivity. Qed.

(** ** Reasoning about executions *)

Section ExecFacts.
Context {W : Type} (step : forall X : Type, event X -> W -> answer X * W).

Lemma after_nil {A} (r : outcome A * connector * W * list entry) :
  after [] r = r.
Proof. by destruct r. Qed.

Lemma after_after {A} tr1 tr2 (r : outcome A * connector * W * list entry) :
  after tr1 (after tr2 r) = after (tr1 ++ tr2) r.
Proof. destruct r. unfold after. by rewrite app_assoc. Qed.

Lemma run_prog_bind {R S} (p : prog R) (f : R -> prog S) w :
  run_prog step (prog_bind p f) w =
  let r := run_prog step p w in
  let r' := run_prog step (f r.1.1) r.1.2 in
  (r'.1, r.2 ++ r'.2).
Proof.
  revert w. induction p as [r|X e k IH]; intros w; simpl.
  - by destruct (run_prog step (f r) w) as [[??]?].
  - destruct (step X e w) as [a w'].
    rewrite IH. simpl.
    destruct (run_prog step (k a) w') as [[r1 w1] tr1]. simpl.
    by destruct (run_prog step (f r1) w1) as [[??]?].
Qed.

Lemma exec_bind {A B} (m : M A) (f : A -> M B) self w :
  exec step (m ≫= f) self w =
  match exec step m self w with
  | (Ok a, self', w', tr) => after tr (exec step (f a) self' w')
  | (Exc e, self', w', tr) => (Exc e, self', w', tr)
  end.
Proof.
  unfold exec, mbind, M_bind, bind, after. rewrite run_prog_bind. simpl.
  destruct (run_prog step (m self) w) as [[[[a|e] self'] w'] tr]; simpl.
  - by destruct (run_prog step (f a self') w') as [[??]?].
  - by rewrite app_nil_r.
Qed.

Lemma exec_ret {A} (a : A) self w : exec step (mret a) self w = (Ok a, self, w, []).
Proof. done. Qed.

Lemma exec_raise {A} e self w : exec step (@raise A e) self w = (Exc e, self, w, []).
Proof. done. Qed.

Lemma exec_get_self self w : exec step get_self self w = (Ok self, self, w, []).
Proof. done. Qed.

Lemma exec_update_self f self w : exec step (update_self f) self w = (Ok tt, f self, w, []).
Proof. done. Qed.

Lemma exec_lift {A} (o : outcome A) self w : exec step (lift o) self w = (o, self, w, []).
Proof. done. Qed.

Lemma exec_perform {X} (e : event X) self w :
  exec step (perform e) self w =
  match step X e w with
  | (Returned x, w') => (Ok x, self, w', [Entry e (Returned x)])
  | (Raised ex, w') => (Exc ex, self, w', [Entry e (Raised ex)])
  end.
Proof.
  unfold exec, perform. simpl.
  by destruct (step X e w) as [[ex|x] w'].
Qed.


Lemma exec_data_item k self w :
  exec step (data_item k) self w =
  match data self !! k with
  | Some p => (Ok p, self, w, [])
  | None => (Exc (KeyError k), self, w, [])
  end.
Proof.
  unfold data_item. rewrite exec_bind, exec_get_self, after_nil.
  by destruct (data self !! k).
Qed.

Lemma exec_self_get_volume hash self w :
  exec step (self_get_volume hash) self w = (get_volume self hash, self, w, []).
Proof.
  unfold self_get_volume. by rewrite exec_bind, exec_get_self, after_nil.
Qed.

Lemma exec_set_response k v self w :
  exec step (set_response k v) self w = (Ok tt, with_response <[k:=v]> self, w, []).
Proof. done. Qed.

Lemma exec_update_response d self w :
  exec step (update_response d) self w =
  (Ok tt, with_response (fun r => d ∪ r) self, w, []).
Proof. done. Qed.

Lemma exec_on {X} v (c : call X) self w :
  exec step (on v c) self w =
  match step X (on_volume v c) w with
  | (Returned x, w') => (Ok x, self, w', [Entry (on_volume v c) (Returned x)])
  | (Raised ex, w') => (Exc ex, self, w', [Entry (on_volume v c) (Raised ex)])
  end.
Proof. apply exec_perform. Qed.

Lemma exec_local {A} name (x : option A) self w :
  exec step (local name x) self w =
  match x with
  | Some a => (Ok a, self, w, [])
  | None => (Exc (UnboundLocalError name), self, w, [])
  end.
Proof. by destruct x. Qed.

Lemma exec_for_each_nil {A S} (body : A -> S -> M S) s self w :
  exec step (for_each [] body s) self w = (Ok s, self, w, []).
Proof. done. Qed.

Lemma exec_for_each_cons {A S} x l (body : A -> S -> M S) s self w :
  exec step (for_each (x :: l) body s) self w =
  match exec step (body x s) self w with
  | (Ok s', self', w', tr) => after tr (exec step (for_each l body s') self' w')
  | (Exc e, self', w', tr) => (Exc e, self', w', tr)
  end.
Proof. simpl. apply exec_bind. Qed.

End ExecFacts.

(** ** What a method leaves untouched *)




Section Keeps.
Context {T : Type} (f : connector → T).












End Keeps.




(** ** The hash resolver *)

Module Split.

Lemma contains_char c s :
  Py.contains (String c EmptyString) s = Py.occurs c s.
Proof.
  induction s as [|d s IH]; simpl; [done|].
  rewrite IH. destruct (ascii_dec c d) as [->|Hne].
  - rewrite Ascii.eqb_refl. by destruct s.
  - assert (Ascii.eqb d c = false) as -> by (apply Ascii.eqb_neq; congruence).
    done.
Qed.

Lemma split_not_nil sep s : Py.split sep s ≠ [].
Proof.
  induction s as [|c s IH]; simpl; [done|].
  destruct (Ascii.eqb c sep); [done|].
  by destruct (Py.split sep s).
Qed.

Lemma split_absent sep s : Py.occurs sep s = false → Py.split sep s = [s].
Proof.
  induction s as [|c s IH]; simpl; [done|].
  intros [Hc Hs]%orb_false_iff. rewrite Hc, (IH Hs). done.
Qed.

Lemma split_app sep v t :
  Py.occurs sep v = false →
  Py.split sep (v +:+ String sep t) = v :: Py.split sep t.
Proof.
  induction v as [|c v IH]; simpl.
  - intros _. by rewrite Ascii.eqb_refl.
  - intros [Hc Hv]%orb_false_iff. by rewrite Hc, (IH Hv).
Qed.

Lemma split_inv_one sep s a : Py.split sep s = [a] → s = a ∧ Py.occurs sep s = false.
Proof.
  revert a. induction s as [|c s IH]; simpl; intros a.
  - by intros [= <-].
  - destruct (Ascii.eqb c sep) eqn:Hc.
    + intros [= _ H]. by destruct (split_not_nil sep s).
    + destruct (Py.split sep s) as [|p ps] eqn:Hs; [by destruct (split_not_nil sep s)|].
      intros [= <- ->]. destruct (IH p eq_refl) as [-> Ho]. by rewrite Ho.
Qed.

Lemma split_inv_two sep s a b :
  Py.split sep s = [a; b] →
  s = a +:+ String sep b ∧ Py.occurs sep a = false ∧ Py.occurs sep b = false.
Proof.
  revert a. induction s as [|c s IH]; simpl; intros a; [done|].
  destruct (Ascii.eqb c sep) eqn:Hc.
  - intros [= <- Hs]. apply Ascii.eqb_eq in Hc as ->.
    destruct (split_inv_one _ _ _ Hs) as [-> Ho]. done.
  - destruct (Py.split sep s) as [|p ps] eqn:Hs; [done|].
    intros [= <- ->]. destruct (IH p eq_refl) as (-> & Hp & Hb).
    simpl. by rewrite Hc, Hp.
Qed.

End Split.

Lemma split_identifier (v t : string) :
  Py.contains sep v = false → Py.contains sep t = false →
  Py.split "_" (v +:+ sep +:+ t) = [v; t].
Proof.
  unfold sep. rewrite !Split.contains_char. intros Hv Ht.
  change (v +:+ "_" +:+ t) with (v +:+ String "_" t).
  rewrite (Split.split_app _ _ _ Hv). by rewrite (Split.split_absent _ _ Ht).
Qed.

(** C1, as amended: an identifier resolves to the volume [vol], and
    the resolver returns that volume alone, exactly when it is
    [v + '_' + t] with neither [v] nor [t] containing the separator and
    [volumes[v]] being [vol]. *)
Theorem get_volume_resolves (self : connector) (s : string) (vol : volume) :
  get_volume self (VStr s) = Ok vol ↔
  ∃ v t, s = v +:+ sep +:+ t ∧
         Py.contains sep v = false ∧ Py.contains sep t = false ∧
         ODict.get v (volumes self) = Some vol.
Proof.
  split.
  - unfold get_volume.
    destruct (Py.split "_" s) as [|v [|t [|??]]] eqn:Hs; try done.
    destruct (ODict.get v (volumes self)) as [vol'|] eqn:Hv; [|done].
    intros [= ->]. exists v, t.
    destruct (Split.split_inv_two _ _ _ _ Hs) as (-> & Ha & Hb).
    unfold sep. by rewrite !Split.contains_char.
  - intros (v & t & -> & Hv & Ht & Hget).
    unfold get_volume. rewrite (split_identifier _ _ Hv Ht). by rewrite Hget.
Qed.

(** The identifier of the scenario, [A_root_file1.txt]: its local target
    contains the separator, and it does not resolve. *)
Lemma get_volume_target_with_separator :
  ODict.get "A" (volumes (__init__ [Demo.A])) = Some Demo.A ∧
  get_volume (__init__ [Demo.A]) (VStr ("A" +:+ sep +:+ "root_file1.txt")) =
    Exc (Exception_ "Invalid target hash: A_root_file1.txt") ∧
  get_volume (__init__ [Demo.A]) (VStr ("A" +:+ sep +:+ "root_file1.txt")) ≠
    Ok Demo.A.
Proof.
  split; [vm_compute; reflexivity|]. split; [vm_compute; reflexivity|].
  vm_compute. discriminate.
Qed.

Lemma get_volume_resolves_witness :
  get_volume (__init__ [Demo.A; Demo.B]) (VStr "B_notes.txt") = Ok Demo.B.
Proof.
  apply (get_volume_resolves (__init__ [Demo.A; Demo.B]) "B_notes.txt" Demo.B).
  exists "B", "notes.txt". repeat split; vm_compute; reflexivity.
Defined.

(** C8: an identifier without separator is rejected as invalid; an
    identifier whose volume segment is not registered raises [KeyError]
    when it has exactly two components and is rejected as invalid
    otherwise; in both cases no volume is returned. *)
Theorem get_volume_fails (self : connector) (s : string) :
  (Py.contains sep s = false →
     get_volume self (VStr s) = Exc (Exception_ ("Invalid target hash: " +:+ s))) ∧
  (ODict.get (volume_segment s) (volumes self) = None →
     get_volume self (VStr s) =
       if Nat.eqb (length (Py.split "_" s)) 2
       then Exc (KeyError (volume_segment s))
       else Exc (Exception_ ("Invalid target hash: " +:+ s))) ∧
  (Py.contains sep s = false ∨ ODict.get (volume_segment s) (volumes self) = None →
     ∀ vol, get_volume self (VStr s) ≠ Ok vol).
Proof.
  assert (Py.contains sep s = false →
          get_volume self (VStr s) = Exc (Exception_ ("Invalid target hash: " +:+ s))) as H1.
  { unfold sep. rewrite Split.contains_char. intros Hs.
    unfold get_volume. by rewrite (Split.split_absent _ _ Hs). }
  assert (ODict.get (volume_segment s) (volumes self) = None →
     get_volume self (VStr s) =
       if Nat.eqb (length (Py.split "_" s)) 2
       then Exc (KeyError (volume_segment s))
       else Exc (Exception_ ("Invalid target hash: " +:+ s))) as H2.
  { unfold get_volume, volume_segment.
    destruct (Py.split "_" s) as [|v [|t [|??]]]; simpl; try done.
    by intros ->. }
  split; [done|]. split; [done|].
  intros [H|H] vol.
  - by rewrite (H1 H).
  - rewrite (H2 H). by destruct (Nat.eqb _ _).
Qed.

Lemma get_volume_fails_witness :
  get_volume (__init__ [Demo.A]) (VStr "Aroot") =
    Exc (Exception_ "Invalid target hash: Aroot") ∧
  get_volume (__init__ [Demo.A]) (VStr "X_root") = Exc (KeyError "X") ∧
  get_volume (__init__ [Demo.A]) (VStr "X_root") ≠ Ok Demo.A.
Proof.
  split; [|split].
  - apply (proj1 (get_volume_fails (__init__ [Demo.A]) "Aroot")). vm_compute; reflexivity.
  - apply (proj1 (proj2 (get_volume_fails (__init__ [Demo.A]) "X_root"))). vm_compute; reflexivity.
  - apply (proj2 (proj2 (get_volume_fails (__init__ [Demo.A]) "X_root"))).
    right. vm_compute; reflexivity.
Defined.

(** ** The request validator *)

Lemma check_fields_true (d : gmap string param) (fields : list (string * bool)) :
  check_fields d fields = true ↔
  ∀ (k : string) (b : bool), (k, b) ∈ fields →
    if b return Prop then is_Some (d !! k) else d !! k = None.
Proof.
  induction fields as [|[k b] fields IH]; simpl.
  - split; [|done]. intros _ k b Hin. by apply elem_of_nil in Hin.
  - destruct b; simpl.
    + destruct (bool_decide (is_Some (d !! k))) eqn:Hk; simpl.
      * apply bool_decide_eq_true in Hk. rewrite IH. split.
        -- intros H k' b' [[= -> ->]|Hin]%elem_of_cons; [done|by apply H].
        -- intros H k' b' Hin. apply H. by right.
      * apply bool_decide_eq_false in Hk. split; [done|].
        intros H. destruct Hk. apply (H k true). by left.
    + destruct (bool_decide (is_Some (d !! k))) eqn:Hk; simpl.
      * apply bool_decide_eq_true in Hk. split; [done|].
        intros H. specialize (H k false (list_elem_of_here _ _)). simpl in H.
        rewrite H in Hk. by destruct Hk.
      * apply bool_decide_eq_false in Hk. rewrite IH. split.
        -- intros H k' b' [[= -> ->]|Hin]%elem_of_cons; [|by apply H].
           by apply eq_None_not_Some.
        -- intros H k' b' Hin. apply H. by right.
Qed.

Lemma check_command_variables_true (self : connector) (cv : gmap string bool) :
  check_command_variables self cv = true ↔
  (∀ k, cv !! k = Some true → is_Some (data self !! k)) ∧
  (∀ k, cv !! k = Some false → data self !! k = None).
Proof.
  unfold check_command_variables. rewrite check_fields_true. split.
  - intros H. split; intros k Hk.
    + by apply (H k true), elem_of_map_to_list.
    + by apply (H k false), elem_of_map_to_list.
  - intros [Ht Hf] k [] Hin%elem_of_map_to_list; [by apply Ht|by apply Hf].
Qed.

(** Two parameter sets with the same contract keys get the same verdict. *)
Lemma check_command_variables_agree (self self' : connector) (cv : gmap string bool) :
  (∀ k, is_Some (cv !! k) → (is_Some (data self !! k) ↔ is_Some (data self' !! k))) →
  check_command_variables self cv = check_command_variables self' cv.
Proof.
  intros Hagree.
  assert (∀ a b : connector,
            (∀ k, is_Some (cv !! k) → (is_Some (data a !! k) ↔ is_Some (data b !! k))) →
            check_command_variables a cv = true →
            check_command_variables b cv = true) as Hmono.
  { intros a b Hab. rewrite !check_command_variables_true. intros [Ht Hf]. split.
    - intros k Hk. apply Hab; [by eexists|by apply Ht].
    - intros k Hk. apply eq_None_not_Some. intros Hb.
      apply Hab in Hb; [|by eexists]. rewrite (Hf k Hk) in Hb. by destruct Hb. }
  destruct (check_command_variables self cv) eqn:H1,
           (check_command_variables self' cv) eqn:H2; try done.
  - rewrite (Hmono self self' Hagree H1) in H2. done.
  - assert (check_command_variables self cv = true) as H3; [|congruence].
    apply (Hmono self' self); [|done]. intros k Hk. symmetry. by apply Hagree.
Qed.

(** C3: the validator accepts exactly when every key the contract maps
    to true is in the parameter set and every key it maps to false is
    not; adding or removing a key that is not in the contract does not
    change the verdict. *)
Theorem check_command_variables_spec (self : connector) (cv : gmap string bool) :
  (check_command_variables self cv = true ↔
     (∀ k, cv !! k = Some true → is_Some (data self !! k)) ∧
     (∀ k, cv !! k = Some false → data self !! k = None)) ∧
  (∀ k p, cv !! k = None →
     check_command_variables (with_data <[ k := p ]> self) cv =
     check_command_variables self cv) ∧
  (∀ k, cv !! k = None →
     check_command_variables (with_data (delete k) self) cv =
     check_command_variables self cv).
Proof.
  split; [apply check_command_variables_true|]. split.
  - intros k p Hk. apply check_command_variables_agree. intros k' [b Hk']. simpl.
    rewrite lookup_insert_ne; [done|]. intros ->. congruence.
  - intros k Hk. apply check_command_variables_agree. intros k' [b Hk']. simpl.
    rewrite lookup_delete_ne; [done|]. intros ->. congruence.
Qed.

Lemma check_command_variables_spec_witness :
  check_command_variables
    (with_data <[ "width" := PStr "10" ]>
       (Demo.connector_with [Demo.A] [("target", PStr "A_root")]))
    {[ "target" := true ]} =
  check_command_variables
    (Demo.connector_with [Demo.A] [("target", PStr "A_root")])
    {[ "target" := true ]}.
Proof.
  apply (proj1 (proj2 (check_command_variables_spec
                         (Demo.connector_with [Demo.A] [("target", PStr "A_root")])
                         {[ "target" := true ]}))).
  vm_compute; reflexivity.
Defined.

Example check_required_present :
  check_command_variables
    (Demo.connector_with [] [("target", PStr "A_root"); ("name", PStr "docs")])
    (<[ "target" := true ]> {[ "name" := true ]}) = true.
Proof. vm_compute; reflexivity. Qed.

Example check_required_absent :
  check_command_variables
    (Demo.connector_with [] [("target", PStr "A_root")])
    (<[ "target" := true ]> {[ "name" := true ]}) = false.
Proof. vm_compute; reflexivity. Qed.

Example check_forbidden_present :
  check_command_variables
    (Demo.connector_with [] [("target", PStr "A_root")])
    {[ "target" := false ]} = false.
Proof. vm_compute; reflexivity. Qed.

(** ** Reconciliation by path *)

Lemma path_is_true (p : option string) (z : string) :
  path_is p z = true ↔ p = Some z.
Proof.
  destruct p as [s|]; simpl; [|done].
  rewrite String.eqb_eq. split; [by intros ->|by intros [= ->]].
Qed.

Lemma path_is_decide (p : option string) (z : string) :
  path_is p z = bool_decide (p = Some z).
Proof.
  destruct (path_is p z) eqn:Hp; symmetry.
  - by apply bool_decide_eq_true, path_is_true.
  - apply bool_decide_eq_false. intros H%path_is_true. congruence.
Qed.

Lemma matching_elem (z : string) (tree : list node) (paths : list (option string))
  (n : node) :
  n ∈ matching z tree paths ↔
  ∃ i, tree !! i = Some n ∧ paths !! i = Some (Some z).
Proof.
  revert paths. induction tree as [|m tree IH]; intros [|p paths]; simpl.
  - split; [by intros ?%elem_of_nil|by intros (i & ? & ?)].
  - split; [by intros ?%elem_of_nil|by intros (i & ? & ?)].
  - split; [by intros ?%elem_of_nil|]. intros (i & ? & Hi). by destruct i.
  - rewrite <- path_is_decide. destruct (path_is p z) eqn:Hp.
    + apply path_is_true in Hp as ->. rewrite elem_of_cons, IH. split.
      * intros [->|(i & ? & ?)]; [by exists 0|by exists (S i)].
      * intros ([|i] & Hn & Hi); simpl in *; [left; congruence|right; eauto].
    + rewrite IH. split.
      * intros (i & ? & ?). by exists (S i).
      * intros ([|i] & Hn & Hi); simpl in *; [|eauto].
        injection Hi as ->. simpl in Hp. by rewrite String.eqb_refl in Hp.
Qed.

Lemma matching_absent (z : string) (tree : list node) (paths : list (option string)) :
  Some z ∉ paths → matching z tree paths = [].
Proof.
  revert paths. induction tree as [|m tree IH]; intros [|p paths]; simpl; try done.
  intros [Hp Hps]%not_elem_of_cons.
  rewrite <- path_is_decide. destruct (path_is p z) eqn:Hpz; [|by apply IH].
  apply path_is_true in Hpz. congruence.
Qed.

(** When the resolved paths are pairwise different, at most one node
    matches, and exactly one if the path is among them. *)
Lemma matching_unique (z : string) (tree : list node) (paths : list (option string)) :
  NoDup paths → length paths = length tree →
  (length (matching z tree paths) ≤ 1)%nat ∧
  (Some z ∈ paths → length (matching z tree paths) = 1).
Proof.
  revert paths. induction tree as [|m tree IH]; intros [|p paths]; simpl; try done.
  - intros _ _. split; [lia|by intros ?%elem_of_nil].
  - intros [Hp Hnd]%NoDup_cons [= Hlen].
    destruct (IH paths Hnd Hlen) as [Hle Hone].
    rewrite <- !path_is_decide. destruct (path_is p z) eqn:Hpz.
    + apply path_is_true in Hpz as ->. rewrite (matching_absent _ _ _ Hp). simpl.
      split; [lia|done].
    + split; [done|]. intros [<-|Hin]%elem_of_cons; [|by apply Hone].
      simpl in Hpz. by rewrite String.eqb_refl in Hpz.
Qed.

(** *** [os.path.join] and the name of the archive *)

Lemma startswith_slash_append (name rest : string) (c : ascii) :
  c ≠ "/"%char →
  Py.startswith "/" name = false →
  Py.startswith "/" (name +:+ String c rest) = false.
Proof.
  intros Hc. unfold Py.startswith. destruct name as [|d name].
  - intros _. change ("" +:+ String c rest) with (String c rest).
    cbn -[ascii_dec]. destruct (ascii_dec "/" c) as [Heq|]; [|done]. by destruct Hc.
  - change (String d name +:+ String c rest) with (String d (name +:+ String c rest)).
    cbn -[ascii_dec]. destruct (ascii_dec "/" d); [|done]. by destruct name.
Qed.

(** A relative name is placed inside the directory. *)
Lemma path_join_relative (dir name : string) :
  Py.is_empty dir = false →
  Py.startswith "/" name = false →
  Py.path_join dir name =
    (if Py.endswith_char "/" dir then dir else dir +:+ "/") +:+ name.
Proof.
  intros Hd Hn. unfold Py.path_join. rewrite Hn, Hd. simpl.
  destruct (Py.endswith_char "/" dir); [done|].
  clear. induction dir as [|c dir IH]; [done|].
  change (String c dir +:+ "/" +:+ name) with (String c (dir +:+ "/" +:+ name)).
  by rewrite IH.
Qed.

(** An absolute name replaces the directory. *)
Lemma path_join_absolute (dir name : string) :
  Py.startswith "/" name = true → Py.path_join dir name = name.
Proof. intros Hn. unfold Py.path_join. by rewrite Hn. Qed.

(** *** The stem of the archive's file name *)

Lemma split_parts_without_sep c s p :
  p ∈ Py.split c s → Py.occurs c p = false.
Proof.
  revert p. induction s as [|d s IH]; simpl; intros p.
  - by intros ->%list_elem_of_singleton.
  - destruct (Ascii.eqb d c) eqn:Hd.
    + intros [->|Hin]%elem_of_cons; [done|by apply IH].
    + destruct (Py.split c s) as [|q qs]; [by intros ->%list_elem_of_singleton; simpl; rewrite Hd|].
      intros [->|Hin]%elem_of_cons.
      * simpl. rewrite Hd. apply IH. by left.
      * apply IH. by right.
Qed.

Lemma split_parts_occurs c d s p :
  p ∈ Py.split c s → Py.occurs d p = true → Py.occurs d s = true.
Proof.
  revert p. induction s as [|e s IH]; simpl; intros p.
  - by intros ->%list_elem_of_singleton.
  - destruct (Ascii.eqb e c) eqn:He.
    + intros [->|Hin]%elem_of_cons; [done|].
      intros Hp. rewrite (IH p Hin Hp). by rewrite orb_true_r.
    + destruct (Py.split c s) as [|q qs].
      { intros ->%list_elem_of_singleton. simpl. rewrite orb_false_r. by intros ->. }
      intros [->|Hin]%elem_of_cons; simpl.
      * intros [->|Hq]%orb_true_iff; [done|].
        rewrite (IH q); [by rewrite orb_true_r|by left|done].
      * intros Hp. rewrite (IH p); [by rewrite orb_true_r|by right|done].
Qed.

Lemma startswith_occurs c s :
  Py.startswith (String c EmptyString) s = true → Py.occurs c s = true.
Proof.
  unfold Py.startswith. destruct s as [|d s]; cbn -[ascii_dec]; [done|].
  destruct (ascii_dec c d) as [->|]; [|done]. by rewrite Ascii.eqb_refl.
Qed.

(** The stem contains no slash: joined to a directory, it stays inside. *)
Lemma file_stem_relative (path stem : string) :
  file_stem path = Some stem → Py.startswith "/" stem = false.
Proof.
  unfold file_stem, Py.last_item, Py.first_item. intros H.
  destruct (last (Py.split "/" path)) as [b|] eqn:Hb; [|done]. simpl in H.
  assert (Py.occurs "/" b = false) as Hnb.
  { apply (split_parts_without_sep "/" path). by eapply last_Some_elem_of. }
  destruct (Py.startswith "/" stem) eqn:Hs; [|done].
  apply (startswith_occurs "/"%char) in Hs.
  rewrite (split_parts_occurs "." "/" b stem) in Hnb; [done| |done].
  by apply head_Some_elem_of.
Qed.

Lemma last_split_app c dir rest :
  last (Py.split c (dir +:+ String c rest)) = last (Py.split c rest).
Proof.
  induction dir as [|d dir IH].
  - change ("" +:+ String c rest) with (String c rest). simpl.
    rewrite Ascii.eqb_refl.
    destruct (Py.split c rest) eqn:Hr; [by destruct (Split.split_not_nil c rest)|done].
  - change (String d dir +:+ String c rest) with (String d (dir +:+ String c rest)).
    simpl. destruct (Ascii.eqb d c).
    + destruct (Py.split c (dir +:+ String c rest)) eqn:Hr;
        [by destruct (Split.split_not_nil c (dir +:+ String c rest))|].
      by rewrite <- IH.
    + destruct (Py.split c (dir +:+ String c rest)) as [|q [|q' qs]] eqn:Hr.
      * by destruct (Split.split_not_nil c (dir +:+ String c rest)).
      * rewrite <- IH. simpl. exfalso.
        destruct (Split.split_inv_one _ _ _ Hr) as [_ Ho].
        clear -Ho. induction dir as [|e dir IH]; simpl in Ho.
        -- by rewrite Ascii.eqb_refl in Ho.
        -- apply orb_false_iff in Ho as [_ Ho]. by apply IH.
      * by rewrite <- IH.
Qed.

(** For [dir/base.ext], with neither slash nor dot in [base] and no
    slash in [ext], the stem is [base]. *)
Lemma file_stem_simple (dir base ext : string) :
  Py.contains "/" base = false → Py.contains "." base = false →
  Py.contains "/" ext = false →
  file_stem (dir +:+ "/" +:+ base +:+ "." +:+ ext) = Some base.
Proof.
  rewrite !Split.contains_char. intros Hb Hd He. unfold file_stem, Py.last_item.
  change (dir +:+ "/" +:+ base +:+ "." +:+ ext)
    with (dir +:+ String "/" (base +:+ String "." ext)).
  rewrite last_split_app.
  rewrite (Split.split_absent "/" (base +:+ String "." ext)).
  - simpl. unfold Py.first_item. by rewrite (Split.split_app _ _ _ Hd).
  - clear Hd. induction base as [|c base IH]; simpl in *.
    + done.
    + apply orb_false_iff in Hb as [-> Hb]. by apply IH.
Qed.

Lemma occurs_app c a b :
  Py.occurs c (a +:+ b) = Py.occurs c a || Py.occurs c b.
Proof.
  induction a as [|d a IH]; [done|].
  change (String d a +:+ b) with (String d (a +:+ b)). simpl.
  by rewrite IH, orb_assoc.
Qed.

Lemma endswith_char_cons c d s :
  s ≠ "" → Py.endswith_char c (String d s) = Py.endswith_char c s.
Proof. by destruct s. Qed.

Lemma endswith_char_inv c s :
  Py.endswith_char c s = true → ∃ s0, s = s0 +:+ String c EmptyString.
Proof.
  induction s as [|d s IH]; [done|].
  destruct s as [|e s].
  - simpl. intros ->%Ascii.eqb_eq. by exists "".
  - rewrite endswith_char_cons by done. intros [s0 ->]%IH. by exists (String d s0).
Qed.

Lemma str_append_assoc (a b c : string) : (a +:+ b) +:+ c = a +:+ b +:+ c.
Proof.
  induction a as [|d a IH]; [done|].
  change (String d ((a +:+ b) +:+ c) = String d (a +:+ b +:+ c)). by f_equal.
Qed.

Lemma str_append_empty (a : string) : a +:+ "" = a.
Proof.
  induction a as [|d a IH]; [done|].
  change (String d (a +:+ "") = String d a). by f_equal.
Qed.

(** The last part of a split is what follows the last separator. *)
Lemma last_split_inv c s b :
  last (Py.split c s) = Some b →
  ∃ dir, s = dir +:+ b ∧ (dir = "" ∨ Py.endswith_char c dir = true) ∧
         Py.occurs c b = false.
Proof.
  revert b. induction s as [|d s IH]; intros b; simpl.
  - intros [= <-]. exists "". split_and!; [done|by left|done].
  - destruct (Ascii.eqb d c) eqn:Hd.
    + apply Ascii.eqb_eq in Hd as ->.
      destruct (Py.split c s) as [|p ps] eqn:Hs; [by destruct (Split.split_not_nil c s)|].
      rewrite last_cons_cons. intros Hb.
      destruct (IH b Hb) as (dir & -> & Hdir & Hocc).
      exists (String c dir). split_and!; [done| |done]. right.
      destruct Hdir as [->|Hdir]; [simpl; apply Ascii.eqb_refl|].
      rewrite endswith_char_cons; [done|]. by intros ->.
    + destruct (Py.split c s) as [|p [|q qs]] eqn:Hs.
      * by destruct (Split.split_not_nil c s).
      * intros [= <-]. destruct (Split.split_inv_one _ _ _ Hs) as [-> Ho].
        exists "". split_and!; [done|by left|]. simpl. by rewrite Hd, Ho.
      * rewrite last_cons_cons. intros Hb.
        destruct (IH b Hb) as (dir & -> & Hdir & Hocc).
        exists (String d dir). split_and!; [done| |done]. right.
        destruct Hdir as [->|Hdir].
        { change ("" +:+ b) with b in Hs.
          by rewrite (Split.split_absent _ _ Hocc) in Hs. }
        rewrite endswith_char_cons; [done|]. by intros ->.
Qed.

(** The first part of a split is what precedes the first separator. *)
Lemma head_split_inv c s a :
  head (Py.split c s) = Some a →
  ∃ tail, s = a +:+ tail ∧ Py.occurs c a = false ∧
          (tail = "" ∨ Py.startswith (String c EmptyString) tail = true).
Proof.
  revert a. induction s as [|d s IH]; intros a; simpl.
  - intros [= <-]. exists "". split_and!; [done|done|by left].
  - destruct (Ascii.eqb d c) eqn:Hd.
    + apply Ascii.eqb_eq in Hd as ->. intros [= <-].
      exists (String c s). split_and!; [done|done|right].
      unfold Py.startswith. cbn -[ascii_dec].
      destruct (ascii_dec c c); [by destruct s|done].
    + destruct (Py.split c s) as [|p ps] eqn:Hs; [by destruct (Split.split_not_nil c s)|].
      intros [= <-]. destruct (IH p eq_refl) as (tail & -> & Ho & Htail).
      exists tail. split_and!; [done| |done]. simpl. by rewrite Hd, Ho.
Qed.

(** What [path.split('/')[-1].split('.')[0]] is: the path is a
    directory part, empty or ending in a slash, then the stem, with
    neither slash nor dot in it, then a rest without slash that is
    empty or begins with a dot. *)
Lemma file_stem_inv (path stem : string) :
  file_stem path = Some stem →
  ∃ dir tail,
    path = dir +:+ stem +:+ tail ∧
    (dir = "" ∨ Py.endswith_char "/" dir = true) ∧
    Py.contains "/" stem = false ∧ Py.contains "." stem = false ∧
    Py.contains "/" tail = false ∧
    (tail = "" ∨ Py.startswith "." tail = true).
Proof.
  unfold file_stem, Py.last_item, Py.first_item. intros H.
  destruct (last (Py.split "/" path)) as [b|] eqn:Hb; [|done]. simpl in H.
  destruct (last_split_inv _ _ _ Hb) as (dir & -> & Hdir & Hslash).
  destruct (head_split_inv _ _ _ H) as (tail & -> & Hdot & Htail).
  rewrite occurs_app in Hslash. apply orb_false_iff in Hslash as [Hs1 Hs2].
  exists dir, tail. rewrite !Split.contains_char. by split_and!.
Qed.

(** Conversely, a path cut this way has that stem, and no other: the
    three parts are determined by the path. *)
Lemma file_stem_intro (dir stem tail : string) :
  (dir = "" ∨ Py.endswith_char "/" dir = true) →
  Py.contains "/" stem = false → Py.contains "." stem = false →
  Py.contains "/" tail = false →
  (tail = "" ∨ Py.startswith "." tail = true) →
  file_stem (dir +:+ stem +:+ tail) = Some stem.
Proof.
  rewrite !Split.contains_char. intros Hdir Hs1 Hdot Hs2 Htail.
  assert (Py.occurs "/" (stem +:+ tail) = false) as Hb
    by (by rewrite occurs_app, Hs1, Hs2).
  assert (last (Py.split "/" (dir +:+ stem +:+ tail)) = Some (stem +:+ tail)) as Hlast.
  { destruct Hdir as [->|[d0 ->]%endswith_char_inv].
    - change ("" +:+ stem +:+ tail) with (stem +:+ tail).
      by rewrite (Split.split_absent _ _ Hb).
    - rewrite str_append_assoc.
      change (String "/" "" +:+ stem +:+ tail) with (String "/" (stem +:+ tail)).
      rewrite last_split_app. by rewrite (Split.split_absent _ _ Hb). }
  unfold file_stem, Py.last_item, Py.first_item. rewrite Hlast. simpl.
  destruct Htail as [->|Htail].
  - rewrite str_append_empty. by rewrite (Split.split_absent _ _ Hdot).
  - destruct tail as [|c tail]; [done|].
    unfold Py.startswith in Htail. cbn -[ascii_dec] in Htail.
    destruct (ascii_dec "." c) as [<-|]; [|done].
    by rewrite (Split.split_app _ _ _ Hdot).
Qed.

(** An absolute name stays absolute with the extension appended. *)
Lemma startswith_slash_app (name rest : string) :
  Py.startswith "/" name = true → Py.startswith "/" (name +:+ rest) = true.
Proof.
  unfold Py.startswith. destruct name as [|d name]; [done|].
  change (String d name +:+ rest) with (String d (name +:+ rest)).
  cbn -[ascii_dec]. destruct (ascii_dec "/" d); [|done].
  intros _. by destruct (name +:+ rest).
Qed.

(** ** The command handlers *)

Create Rewrite HintDb exec.
#[global] Hint Rewrite @exec_bind @exec_ret @exec_raise @exec_get_self
  @exec_update_self @exec_lift @exec_data_item @exec_self_get_volume
  @exec_set_response @exec_update_response @exec_on @exec_perform @exec_local
  @exec_for_each_nil @exec_for_each_cons @after_nil @after_after : exec.

(** One step of symbolic execution: push [exec] through the next
    statement and reduce the result. *)
Ltac exec_step :=
  repeat progress (autorewrite with exec; cbn beta iota delta [after fst snd app]).

Section Handlers.
Context {W : Type} (step : forall X : Type, event X -> W -> answer X * W).

(** C4: when [src] and [dst] resolve to two different volume objects,
    [__paste] raises the cross-volume error whatever [cut] is, without
    calling anything: no call is recorded, and neither the world nor
    the connector changes. *)
Theorem paste_between_volumes (self : connector) (w : W)
  (targets src dst cut : param) (sv dv : volume) :
  data self !! "targets[]" = Some targets →
  data self !! "src" = Some src →
  data self !! "dst" = Some dst →
  data self !! "cut" = Some cut →
  get_volume self (param_value src) = Ok sv →
  get_volume self (param_value dst) = Ok dv →
  vol_oid sv ≠ vol_oid dv →
  exec step __paste self w =
    (Exc (Exception_ "Moving between volumes is not supported."), self, w, []).
Proof.
  intros Ht Hs Hd Hc Hsv Hdv Hne. unfold __paste.
  exec_step. rewrite Ht. exec_step. rewrite Hs. exec_step. rewrite Hd.
  exec_step. rewrite Hc. exec_step. rewrite Hsv. exec_step. rewrite Hdv.
  exec_step.
  assert (volume_ne sv dv = true) as ->.
  { unfold volume_ne. apply negb_true_iff, Nat.eqb_neq. done. }
  by exec_step.
Qed.

Lemma exec_removed_list self w l :
  response self !! "removed" = Some (VList l) →
  exec step removed_list self w = (Ok l, self, w, []).
Proof. intros H. unfold removed_list. exec_step. rewrite H. by exec_step. Qed.

(** The loop of [__remove]: with [acc] already in [removed], every
    target resolving and every call returning, the calls are one
    [remove] per target on its volume, and [removed] gets the answers
    appended in order. *)
Lemma remove_loop (targets : list string) (self : connector) (w : W)
  (acc : list value) o self' w' tr :
  response self !! "removed" = Some (VList acc) →
  exec step (for_each targets remove_body tt) self w = (o, self', w', tr) →
  Forall (λ t, ∃ v, get_volume self (VStr t) = Ok v) targets →
  forallb entry_returned tr = true →
  ∃ vols rs,
    Forall2 (λ t v, get_volume self (VStr t) = Ok v) targets vols ∧
    length rs = length targets ∧
    tr = zip_with remove_entry (zip targets vols) rs ∧
    o = Ok tt ∧
    self' = with_response <[ "removed" := VList (acc ++ rs) ]> self.
Proof.
  revert self w acc tr.
  induction targets as [|t targets IH]; intros self w acc tr Hacc Hexec Hres Hret.
  - rewrite exec_for_each_nil in Hexec. injection Hexec as <- <- <- <-.
    exists [], []. rewrite app_nil_r. repeat split; try done.
    destruct self. unfold with_response. simpl in *. f_equal.
    apply map_eq. intros k. destruct (decide (k = "removed")) as [->|Hk].
    + by rewrite lookup_insert_eq.
    + by rewrite lookup_insert_ne.
  - apply Forall_cons in Hres as [[v Hv] Hres].
    rewrite exec_for_each_cons in Hexec. unfold remove_body at 1 in Hexec.
    revert Hexec. exec_step. rewrite Hv. exec_step.
    rewrite (exec_removed_list _ _ _ Hacc). exec_step.
    destruct (step _ (on_volume v (remove (VStr t))) w) as [[ex|r] w1]; exec_step.
    + intros [= <- <- <- <-]. done.
    + set (self1 := with_response _ self).
      destruct (exec step (for_each targets remove_body tt) self1 w1)
        as [[[o2 self2] w2] tr2] eqn:Hrest.
      simpl. intros [= <- <- <- <-]. simpl in Hret.
      destruct (IH self1 w1 (acc ++ [r]) tr2) as (vols & rs & Hvols & Hlen & Htr & Ho & Hself);
        [by apply lookup_insert_eq|done|done|done|].
      exists (v :: vols), (r :: rs). subst. repeat split.
      * by constructor.
      * simpl. by rewrite Hlen.
      * unfold self1. destruct self. unfold with_response. simpl. f_equal.
        rewrite insert_insert_eq. by rewrite <- app_assoc.
Qed.

(** C5: over a list of targets that all resolve, with every removal
    returning, [__remove] makes exactly one call per target, in order,
    [remove(target)] on the volume the target resolves to, and
    [removed] is the list of the answers, in that order, as long as
    the list of targets. *)
Theorem remove_every_target (self : connector) (w : W) (targets : list string) :
  data self !! "targets[]" = Some (PList targets) →
  Forall (λ t, ∃ v, get_volume self (VStr t) = Ok v) targets →
  forallb entry_returned (exec step __remove self w).2 = true →
  ∃ vols rs,
    Forall2 (λ t v, get_volume self (VStr t) = Ok v) targets vols ∧
    length rs = length targets ∧
    (exec step __remove self w).2 = zip_with remove_entry (zip targets vols) rs ∧
    (exec step __remove self w).1.1.1 = Ok tt ∧
    response (exec step __remove self w).1.1.2 =
      <[ "removed" := VList rs ]> (response self).
Proof.
  intros Hd Hres. unfold __remove. exec_step. rewrite Hd. exec_step.
  change (param_iter (PList targets)) with targets.
  set (self1 := with_response _ self).
  destruct (exec step (for_each targets remove_body tt) self1 w) as [[[o self'] w'] tr] eqn:Hexec.
  simpl. intros Hret.
  destruct (remove_loop targets self1 w [] o self' w' tr)
    as (vols & rs & Hvols & Hlen & Htr & Ho & Hself); [by apply lookup_insert_eq|done..|].
  exists vols, rs. subst. repeat split; try done.
  simpl. by rewrite insert_insert_eq.
Qed.

(** [__open] with an empty target over two mounted volumes: [cwd] is
    the info of the first volume's root, and [files] is the tree of
    the second volume alone; the tree of the first one, although
    fetched, is overwritten. *)
Lemma open_two_volumes (self : connector) (w w1 w2 w3 : W)
  (a b : string) (va vb : volume) (cwd : node) (ta tb : list node) :
  volumes self = [(a, va); (b, vb)] → a ≠ b →
  data self !! "target" = Some (PStr "") →
  data self !! "tree" = None →
  data self !! "init" = None →
  step _ (on_volume va (get_info (VStr ""))) w = (Returned cwd, w1) →
  step _ (on_volume va (get_tree (VStr "") false false)) w1 = (Returned ta, w2) →
  step _ (on_volume vb (get_tree (VStr "") false false)) w2 = (Returned tb, w3) →
  (exec step __open self w).1.1.1 = Ok tt ∧
  response (exec step __open self w).1.1.2 =
    <[ "files" := VList (VDict <$> tb) ]>
      (<[ "cwd" := VDict cwd ]> (response self)).
Proof.
  intros Hvols Hab Htarget Htree Hinit Hinfo Hta Htb.
  unfold __open. exec_step. rewrite Htree, Htarget, Hinit, Hvols.
  simpl ODict.values. simpl ODict.keys.
  change (param_is_str (PStr "") "") with true. cbn iota.
  exec_step. rewrite Hinfo. exec_step.
  simpl ODict.get. rewrite String.eqb_refl.
  exec_step. rewrite Hta. exec_step.
  assert (String.eqb a b = false) as -> by (by apply String.eqb_neq).
  rewrite String.eqb_refl.
  exec_step. rewrite Htb. exec_step.
  rewrite bool_decide_eq_false_2 by (by intros [??]).
  exec_step. simpl. split; [done|]. by rewrite insert_insert_eq.
Qed.

(** C10: when [_find_path] gives no path for the target, [__archive]
    never returns. If the re-scan's own calls return, it ends in
    [UnboundLocalError]: for [added] after the loop when the tree is
    empty, for [zipfile] at the first node otherwise. *)
Theorem archive_without_path (self : connector) (w w1 : W)
  (target targets name type : param) (v : volume) (p : option string) :
  data self !! "target" = Some target →
  data self !! "targets[]" = Some targets →
  data self !! "name" = Some name →
  data self !! "type" = Some type →
  get_volume self (param_value target) = Ok v →
  step _ (on_volume v (_find_path (param_value target))) w = (Returned p, w1) →
  truthy p = false →
  (∃ e, (exec step __archive self w).1.1.1 = Exc e) ∧
  (∀ tree w2,
     step _ (on_volume v (get_tree (param_value target) false false)) w1 =
       (Returned tree, w2) →
     match tree with
     | [] => (exec step __archive self w).1.1.1 = Exc (UnboundLocalError "added")
     | n :: _ =>
         ∀ h q w3,
           n !! "hash" = Some h →
           step _ (on_volume v (_find_path h)) w2 = (Returned q, w3) →
           (exec step __archive self w).1.1.1 = Exc (UnboundLocalError "zipfile")
     end).
Proof.
  intros Ht Hts Hn Hty Hv Hp Hfalsy.
  destruct (exec step __archive self w) as [[[o self'] w'] tr] eqn:Hexec.
  simpl. revert Hexec. unfold __archive.
  exec_step. rewrite Ht. exec_step. rewrite Hts. exec_step. rewrite Hn.
  exec_step. rewrite Hty. exec_step. rewrite Hv. exec_step. rewrite Hp.
  exec_step. rewrite Hfalsy. exec_step.
  destruct (step _ (on_volume v (get_tree (param_value target) false false)) w1)
    as [[ex|tree] w2] eqn:Htree; exec_step.
  { intros [= <- <- <- <-]. split; [by eexists|]. intros ?? [=]. }
  destruct tree as [|n tree]; exec_step.
  { intros [= <- <- <- <-]. split; [by eexists|]. by intros ?? [= <- <-]. }
  unfold archive_scan at 1. unfold node_hash at 1.
  destruct (n !! "hash") as [h|] eqn:Hh; exec_step.
  2:{ intros [= <- <- <- <-]. split; [by eexists|].
      intros ?? [= <- <-] h0 q0 w4 Hh0. congruence. }
  destruct (step _ (on_volume v (_find_path h)) w2) as [[ex|q] w3] eqn:Hq; exec_step.
  { intros [= <- <- <- <-]. split; [by eexists|].
    intros ?? [= <- <-] h0 q0 w4 Hh0 Hq0.
    rewrite Hh in Hh0. injection Hh0 as <-. congruence. }
  intros [= <- <- <- <-]. split; [by eexists|].
  by intros ?? [= <- <-] h0 q0 w4 Hh0 Hq0.
Qed.

(** *** The loops of [__archive] and [__extract] *)

Lemma collect_loop v (targets : list string) acc self w files self' w' tr :
  exec step (for_each targets (archive_collect v) acc) self w =
    (Ok files, self', w', tr) →
  self' = self ∧
  ∃ ps, length ps = length targets ∧ files = acc ++ ps ∧
        tr = zip_with (λ t p, find_entry v (VStr t) p) targets ps.
Proof.
  revert acc w tr. induction targets as [|t targets IH]; intros acc w tr.
  - exec_step. intros [= <- <- <- <-]. split; [done|].
    exists []. by rewrite app_nil_r.
  - rewrite exec_for_each_cons. unfold archive_collect at 1. exec_step.
    destruct (step _ (on_volume v (_find_path (VStr t))) w) as [[ex|p] w1];
      exec_step; [done|].
    destruct (exec step (for_each targets (archive_collect v) (acc ++ [p])) self w1)
      as [[[o2 self2] w2] tr2] eqn:Hrest.
    simpl. intros [= -> -> -> <-].
    destruct (IH _ _ _ Hrest) as (-> & ps & Hlen & -> & ->).
    split; [done|]. exists (p :: ps). simpl. rewrite Hlen, <- app_assoc. done.
Qed.

Lemma archive_scan_loop v z (tree : list node) acc self w added self' w' tr :
  exec step (for_each tree (archive_scan v (Some z)) (Some acc)) self w =
    (Ok added, self', w', tr) →
  self' = self ∧
  ∃ hs ps, Forall2 (λ (n : node) h, n !! "hash" = Some h) tree hs ∧
           length ps = length tree ∧
           tr = zip_with (find_entry v) hs ps ∧
           added = Some (acc ++ matching z tree ps).
Proof.
  revert acc w tr. induction tree as [|n tree IH]; intros acc w tr.
  - exec_step. intros [= <- <- <- <-]. split; [done|].
    exists [], []. rewrite app_nil_r. by repeat split.
  - rewrite exec_for_each_cons. unfold archive_scan at 1, node_hash at 1.
    destruct (n !! "hash") as [h|] eqn:Hh; exec_step; [|done].
    destruct (step _ (on_volume v (_find_path h)) w) as [[ex|p] w1];
      exec_step; [done|].
    destruct (path_is p z) eqn:Hp; exec_step.
    + destruct (exec step (for_each tree (archive_scan v (Some z)) (Some (acc ++ [n]))) self w1)
        as [[[o2 self2] w2] tr2] eqn:Hrest.
      simpl. intros [= -> -> -> <-].
      destruct (IH _ _ _ Hrest) as (-> & hs & ps & Hhs & Hlen & -> & ->).
      split; [done|]. exists (h :: hs), (p :: ps). simpl.
      rewrite Hlen, <- path_is_decide, Hp, <- app_assoc.
      repeat split; try done. by constructor.
    + destruct (exec step (for_each tree (archive_scan v (Some z)) (Some acc)) self w1)
        as [[[o2 self2] w2] tr2] eqn:Hrest.
      simpl. intros [= -> -> -> <-].
      destruct (IH _ _ _ Hrest) as (-> & hs & ps & Hhs & Hlen & -> & ->).
      split; [done|]. exists (h :: hs), (p :: ps). simpl.
      rewrite Hlen, <- path_is_decide, Hp. repeat split; try done. by constructor.
Qed.

Lemma extract_scan_loop v z (tree : list node) acc self w added self' w' tr :
  exec step (for_each tree (extract_scan v z) acc) self w =
    (Ok added, self', w', tr) →
  self' = self ∧
  ∃ hs ps, Forall2 (λ (n : node) h, n !! "hash" = Some h) tree hs ∧
           length ps = length tree ∧
           tr = zip_with (find_entry v) hs ps ∧
           added = acc ++ matching z tree ps.
Proof.
  revert acc w tr. induction tree as [|n tree IH]; intros acc w tr.
  - exec_step. intros [= <- <- <- <-]. split; [done|].
    exists [], []. rewrite app_nil_r. by repeat split.
  - rewrite exec_for_each_cons. unfold extract_scan at 1, node_hash at 1.
    destruct (n !! "hash") as [h|] eqn:Hh; exec_step; [|done].
    destruct (step _ (on_volume v (_find_path h)) w) as [[ex|p] w1];
      exec_step; [done|].
    destruct (path_is p z) eqn:Hp; exec_step.
    + destruct (exec step (for_each tree (extract_scan v z) (acc ++ [n])) self w1)
        as [[[o2 self2] w2] tr2] eqn:Hrest.
      simpl. intros [= -> -> -> <-].
      destruct (IH _ _ _ Hrest) as (-> & hs & ps & Hhs & Hlen & -> & ->).
      split; [done|]. exists (h :: hs), (p :: ps). simpl.
      rewrite Hlen, <- path_is_decide, Hp, <- app_assoc.
      repeat split; try done. by constructor.
    + destruct (exec step (for_each tree (extract_scan v z) acc) self w1)
        as [[[o2 self2] w2] tr2] eqn:Hrest.
      simpl. intros [= -> -> -> <-].
      destruct (IH _ _ _ Hrest) as (-> & hs & ps & Hhs & Hlen & -> & ->).
      split; [done|]. exists (h :: hs), (p :: ps). simpl.
      rewrite Hlen, <- path_is_decide, Hp. repeat split; try done. by constructor.
Qed.

(** What a successful [__archive] with a [type] of the table does: it
    resolves the target to a non-empty path, resolves every listed
    target, and calls [create_archive] once, with
    [os.path.join(path, name.ext)] and the resolved paths; it then
    re-scans the target's tree, resolving every node, and [added] is
    the list of the nodes whose resolved path is the archive's. When
    [name] does not begin with a slash the archive's path is
    [path/name.ext], in the target's location. When it does, the
    archive's path is [name.ext], whatever the target's location is:
    the name is joined unchecked. With pairwise different resolved
    paths at most one node is added, exactly one when the archive's
    path is among them. *)
Theorem archive_added (self : connector) (w : W) (target : param)
  (targets : list string) (name type ext : string) self' w' tr :
  data self !! "target" = Some target →
  data self !! "targets[]" = Some (PList targets) →
  data self !! "name" = Some (PStr name) →
  data self !! "type" = Some (PStr type) →
  type_map !! type = Some ext →
  exec step __archive self w = (Ok tt, self', w', tr) →
  ∃ v abs_path files tree hashes paths,
    let zipfile := Py.path_join abs_path (name +:+ "." +:+ ext) in
    get_volume self (param_value target) = Ok v ∧
    Py.is_empty abs_path = false ∧
    length files = length targets ∧
    Forall2 (λ (n : node) h, n !! "hash" = Some h) tree hashes ∧
    length paths = length tree ∧
    tr = find_entry v (param_value target) (Some abs_path)
         :: zip_with (λ t p, find_entry v (VStr t) p) targets files
         ++ Entry (create_archive zipfile files) (Returned tt)
         :: Entry (on_volume v (get_tree (param_value target) false false))
              (Returned tree)
         :: zip_with (find_entry v) hashes paths ∧
    response self' =
      <[ "added" := VList (VDict <$> matching zipfile tree paths) ]> (response self) ∧
    (Py.startswith "/" name = false →
     zipfile = (if Py.endswith_char "/" abs_path then abs_path else abs_path +:+ "/")
               +:+ name +:+ "." +:+ ext) ∧
    (Py.startswith "/" name = true → zipfile = name +:+ "." +:+ ext) ∧
    (NoDup paths →
     (length (matching zipfile tree paths) ≤ 1)%nat ∧
     (Some zipfile ∈ paths → length (matching zipfile tree paths) = 1)).
Proof.
  intros Ht Hts Hn Hty Hext. unfold __archive.
  exec_step. rewrite Ht. exec_step. rewrite Hts. exec_step. rewrite Hn.
  exec_step. rewrite Hty. exec_step.
  destruct (get_volume self (param_value target)) as [v|] eqn:Hv; exec_step; [|done].
  destruct (step _ (on_volume v (_find_path (param_value target))) w)
    as [[ex|abs_path] w1]; exec_step; [done|].
  destruct (truthy abs_path) eqn:Habs; exec_step.
  2:{ (* no path: the handler cannot return *)
    destruct (step _ (on_volume v (get_tree (param_value target) false false)) w1)
      as [[ex|tree] w2]; exec_step; [done|].
    destruct tree as [|n tree]; exec_step; [done|].
    unfold archive_scan at 1, node_hash at 1.
    destruct (n !! "hash") as [h|]; exec_step; [|done].
    by destruct (step _ (on_volume v (_find_path h)) w2) as [[ex|q] w3]; exec_step. }
  destruct abs_path as [abs_path|]; [|done]. simpl in Habs.
  apply negb_true_iff in Habs.
  unfold type_map_item. rewrite Hext. unfold os_path_join. exec_step.
  change (param_iter (PList targets)) with targets.
  change (param_format (PStr name)) with name.
  set (zipfile := Py.path_join abs_path (name +:+ "." +:+ ext)).
  destruct (exec step (for_each targets (archive_collect v) []) self w1)
    as [[[[files|ex] self1] w2] tr1] eqn:Hcollect; exec_step; [|done].
  destruct (collect_loop _ _ _ _ _ _ _ _ _ Hcollect) as (-> & ps & Hlen & -> & ->).
  exec_step.
  destruct (step _ (create_archive zipfile ps) w2) as [[ex|[]] w3];
    exec_step; [done|].
  destruct (step _ (on_volume v (get_tree (param_value target) false false)) w3)
    as [[ex|tree] w4]; exec_step; [done|].
  destruct (exec step (for_each tree (archive_scan v (Some zipfile)) (Some [])) self w4)
    as [[[[added|ex] self2] w5] tr2] eqn:Hscan; exec_step; [|done].
  destruct (archive_scan_loop _ _ _ _ _ _ _ _ _ _ Hscan)
    as (-> & hs & paths & Hhs & Hlen2 & -> & ->).
  exec_step. intros [= <- <- <-].
  exists v, abs_path, ps, tree, hs, paths. simpl.
  split_and!; try done.
  - unfold find_entry. rewrite !app_nil_r, <- !app_assoc. done.
  - by rewrite insert_union_singleton_l.
  - intros Hrel. unfold zipfile. apply path_join_relative; [done|].
    by apply startswith_slash_append.
  - intros Habsolute. unfold zipfile. apply path_join_absolute.
    by apply startswith_slash_app.
  - intros Hnd. by apply matching_unique.
Qed.

Lemma find_entries_no_mkdir v hs ps :
  List.filter is_mkdir (zip_with (find_entry v) hs ps) = [].
Proof.
  revert ps. induction hs as [|h hs IH]; intros [|p ps]; simpl; [done..|].
  apply IH.
Qed.

(** C7: a successful [__extract] asks for the archive's info and
    path, resolves the parent, makes exactly one [mkdir] call, for the
    stem of the archive's file name under the archive's parent, on the
    parent's volume, extracts the archive into
    [os.path.join(parent path, stem)], re-scans the parent's tree
    resolving every node, and [added] is the list of the nodes whose
    resolved path is that directory's. The stem [archive_name] is what
    the last component of the archive's path has before its first dot:
    the path is [dir + archive_name + tail], where [dir] is empty or
    ends in a slash, [archive_name] has neither slash nor dot, and
    [tail] has no slash and is empty or begins with a dot. *)
Theorem extract_added (self : connector) (w : W) (target : param) self' w' tr :
  data self !! "target" = Some target →
  exec step __extract self w = (Ok tt, self', w', tr) →
  ∃ v archive_file path archive_name parent_path parent_volume made
    tree hashes paths,
    let phash := default VNone (archive_file !! "phash") in
    let folder_path := Py.path_join parent_path archive_name in
    get_volume self (param_value target) = Ok v ∧
    get_volume self phash = Ok parent_volume ∧
    (∃ dir tail,
       path = dir +:+ archive_name +:+ tail ∧
       (dir = "" ∨ Py.endswith_char "/" dir = true) ∧
       Py.contains "/" archive_name = false ∧
       Py.contains "." archive_name = false ∧
       Py.contains "/" tail = false ∧
       (tail = "" ∨ Py.startswith "." tail = true)) ∧
    Forall2 (λ (n : node) h, n !! "hash" = Some h) tree hashes ∧
    length paths = length tree ∧
    tr = [ Entry (on_volume v (get_info (param_value target))) (Returned archive_file);
           find_entry v (param_value target) (Some path);
           find_entry v phash (Some parent_path);
           Entry (on_volume parent_volume (mkdir (VStr archive_name) phash))
             (Returned made);
           Entry (extract_archive path folder_path) (Returned tt);
           Entry (on_volume v (get_tree phash false false)) (Returned tree) ]
         ++ zip_with (find_entry v) hashes paths ∧
    List.filter is_mkdir tr =
      [ Entry (on_volume parent_volume (mkdir (VStr archive_name) phash))
          (Returned made) ] ∧
    folder_path =
      (if Py.is_empty parent_path || Py.endswith_char "/" parent_path
       then parent_path else parent_path +:+ "/") +:+ archive_name ∧
    response self' =
      <[ "added" := VList (VDict <$> matching folder_path tree paths) ]>
        (response self).
Proof.
  intros Ht. unfold __extract. exec_step. rewrite Ht. exec_step.
  destruct (get_volume self (param_value target)) as [v|] eqn:Hv; exec_step; [|done].
  destruct (step _ (on_volume v (get_info (param_value target))) w)
    as [[ex|archive_file] w1]; exec_step; [done|].
  destruct (step _ (on_volume v (_find_path (param_value target))) w1)
    as [[ex|[path|]] w2]; exec_step; [done| |done].
  destruct (file_stem path) as [archive_name|] eqn:Hstem; exec_step; [|done].
  destruct (step _ (on_volume v (_find_path (node_phash archive_file))) w2)
    as [[ex|[parent_path|]] w3]; exec_step; [done| |done].
  unfold os_path_join. exec_step.
  set (folder_path := Py.path_join parent_path archive_name).
  destruct (get_volume self (node_phash archive_file)) as [pv|] eqn:Hpv;
    exec_step; [|done].
  destruct (step _ (on_volume pv (mkdir (VStr archive_name) (node_phash archive_file))) w3)
    as [[ex|made] w4]; exec_step; [done|].
  destruct (step _ (extract_archive path folder_path) w4) as [[ex|[]] w5];
    exec_step; [done|].
  destruct (step _ (on_volume v (get_tree (node_phash archive_file) false false)) w5)
    as [[ex|tree] w6]; exec_step; [done|].
  destruct (exec step (for_each tree (extract_scan v folder_path) []) self w6)
    as [[[[added|ex] self2] w7] tr2] eqn:Hscan; exec_step; [|done].
  destruct (extract_scan_loop _ _ _ _ _ _ _ _ _ _ Hscan)
    as (-> & hs & paths & Hhs & Hlen & -> & ->).
  intros [= <- <- <-].
  exists v, archive_file, path, archive_name, parent_path, pv, made, tree, hs, paths.
  simpl. split_and!; try done.
  - by apply file_stem_inv.
  - unfold find_entry. by rewrite !app_nil_r.
  - rewrite !app_nil_r. by rewrite find_entries_no_mkdir.
  - unfold folder_path, Py.path_join.
    rewrite (file_stem_relative _ _ Hstem).
    destruct (Py.is_empty parent_path || Py.endswith_char "/" parent_path); [done|].
    clear. induction parent_path as [|c q IH]; [done|].
    change (String c q +:+ "/" +:+ archive_name)
      with (String c (q +:+ "/" +:+ archive_name)).
    by rewrite IH.
  - by rewrite insert_union_singleton_l.
Qed.

End Handlers.

(** ** The dispatcher *)

(** ** The dispatcher *)

(** A new connector has the status code 200. *)
Lemma init_httpStatusCode (vols : list volume) :
  httpStatusCode (__init__ vols) = 200%Z.
Proof. reflexivity. Qed.





Section DispatcherFacts.
Context {W : Type} (step : forall X : Type, event X -> W -> answer X * W).
Variable ROOT : string.







End DispatcherFacts.

(** ** The connector at work on the small filesystem *)

Lemma paste_between_volumes_witness :
  exec Demo.step __paste Scenario.paste_across Demo.files =
    (Exc (Exception_ "Moving between volumes is not supported."),
     Scenario.paste_across, Demo.files, []).
Proof.
  refine (paste_between_volumes Demo.step Scenario.paste_across Demo.files
            (PList ["A_file1.txt"]) (PStr "A_root") (PStr "B_root") (PStr "1")
            Demo.A Demo.B _ _ _ _ _ _ _);
    first [vm_compute; reflexivity | vm_compute; lia].
Defined.

Lemma remove_every_target_witness :
  ∃ vols rs,
    Forall2 (λ t v, get_volume Scenario.rm_both (VStr t) = Ok v)
      ["A_file1.txt"; "B_notes.txt"] vols ∧
    length rs = 2 ∧
    (exec Demo.step __remove Scenario.rm_both Demo.files).2 =
      zip_with remove_entry (zip ["A_file1.txt"; "B_notes.txt"] vols) rs ∧
    (exec Demo.step __remove Scenario.rm_both Demo.files).1.1.1 = Ok tt ∧
    response (exec Demo.step __remove Scenario.rm_both Demo.files).1.1.2 =
      <[ "removed" := VList rs ]> (response Scenario.rm_both).
Proof.
  refine (remove_every_target Demo.step Scenario.rm_both Demo.files
            ["A_file1.txt"; "B_notes.txt"] _ _ _).
  - vm_compute; reflexivity.
  - repeat constructor; eexists; vm_compute; reflexivity.
  - vm_compute; reflexivity.
Defined.

(** Both removals take place, each on its own volume, and [removed]
    lists both answers in the order of the request. *)
Example remove_two_volumes :
  exec Demo.step __remove Scenario.rm_both Demo.files =
    (Ok tt,
     with_response (λ _, {[ "removed" := VList [VStr "A_file1.txt"; VStr "B_notes.txt"] ]})
       Scenario.rm_both,
     [],
     [ Entry (on_volume Demo.A (remove (VStr "A_file1.txt"))) (Returned (VStr "A_file1.txt"));
       Entry (on_volume Demo.B (remove (VStr "B_notes.txt"))) (Returned (VStr "B_notes.txt")) ]).
Proof. vm_compute; reflexivity. Qed.

(** C2: [open] with an empty target over the volumes A and B. [cwd] is
    the root of A; both trees are fetched, but [files] holds the tree of
    B only: the entry of A is not in it. *)
Theorem open_root_files_of_last_volume :
  exec Demo.step __open Scenario.open_root Demo.files =
    (Ok tt,
     with_response
       (λ _, <[ "cwd" := VDict {[ "hash" := VStr "A_root" ]} ]>
               {[ "files" := VList [VDict Scenario.notes] ]})
       Scenario.open_root,
     Demo.files,
     [ Entry (on_volume Demo.A (get_info (VStr "")))
         (Returned {[ "hash" := VStr "A_root" ]});
       Entry (on_volume Demo.A (get_tree (VStr "") false false))
         (Returned [Scenario.file1]);
       Entry (on_volume Demo.B (get_tree (VStr "") false false))
         (Returned [Scenario.notes]) ]).
Proof. vm_compute; reflexivity. Qed.

(** [archive] of [file1.txt] as [bundle]: the archive appears in the
    re-scanned tree and is the one node added. *)
Example archive_bundle_run :
  Scenario.archived =
    (Ok tt,
     with_response (λ _, {[ "added" := VList [VDict Scenario.bundle] ]})
       (Scenario.archive_as "bundle"),
     Scenario.with_bundle,
     [ find_entry Demo.A (VStr "A_root") (Some "/srv/A");
       find_entry Demo.A (VStr "A_file1.txt") (Some "/srv/A/file1.txt");
       Entry (create_archive "/srv/A/bundle.zip" [Some "/srv/A/file1.txt"]) (Returned tt);
       Entry (on_volume Demo.A (get_tree (VStr "A_root") false false))
         (Returned [Scenario.file1; Scenario.bundle]);
       find_entry Demo.A (VStr "A_file1.txt") (Some "/srv/A/file1.txt");
       find_entry Demo.A (VStr "A_bundle.zip") (Some "/srv/A/bundle.zip") ]).
Proof. vm_compute; reflexivity. Qed.

(** C6: the same request with the name [/x]. The target resolves to
    [/srv/A], yet [create_archive] is called with [/x.zip], which is
    not under [/srv/A]: [os.path.join] drops the target's path before
    an absolute name, and the handler does not check the name. The
    invocation succeeds, the resolved paths of the re-scanned tree are
    pairwise different, and [added] is empty: the archive is neither
    at the target's location nor reported. *)
Theorem archive_absolute_name :
  exec Demo.step __archive (Scenario.archive_as "/x") Demo.files =
    (Ok tt,
     with_response (λ _, {[ "added" := VList [] ]}) (Scenario.archive_as "/x"),
     Demo.files ++ ["/x.zip"],
     [ find_entry Demo.A (VStr "A_root") (Some "/srv/A");
       find_entry Demo.A (VStr "A_file1.txt") (Some "/srv/A/file1.txt");
       Entry (create_archive "/x.zip" [Some "/srv/A/file1.txt"]) (Returned tt);
       Entry (on_volume Demo.A (get_tree (VStr "A_root") false false))
         (Returned [Scenario.file1]);
       find_entry Demo.A (VStr "A_file1.txt") (Some "/srv/A/file1.txt") ]) ∧
  String.prefix "/srv/A" "/x.zip" = false ∧
  "/x.zip" ≠ "/srv/A" +:+ "/" +:+ "/x" +:+ "." +:+ "zip".
Proof.
  split; [vm_compute; reflexivity|]. split; [reflexivity|].
  vm_compute. discriminate.
Qed.

Lemma archive_added_witness :
  ∃ v abs_path files tree hashes paths,
    let zipfile := Py.path_join abs_path ("bundle" +:+ "." +:+ "zip") in
    get_volume (Scenario.archive_as "bundle") (param_value (PStr "A_root")) = Ok v ∧
    Py.is_empty abs_path = false ∧
    length files = length ["A_file1.txt"] ∧
    Forall2 (λ (n : node) h, n !! "hash" = Some h) tree hashes ∧
    length paths = length tree ∧
    Scenario.archived.2 =
      find_entry v (param_value (PStr "A_root")) (Some abs_path)
      :: zip_with (λ t p, find_entry v (VStr t) p) ["A_file1.txt"] files
      ++ Entry (create_archive zipfile files) (Returned tt)
      :: Entry (on_volume v (get_tree (param_value (PStr "A_root")) false false))
           (Returned tree)
      :: zip_with (find_entry v) hashes paths ∧
    response Scenario.archived.1.1.2 =
      <[ "added" := VList (VDict <$> matching zipfile tree paths) ]>
        (response (Scenario.archive_as "bundle")) ∧
    (Py.startswith "/" "bundle" = false →
     zipfile = (if Py.endswith_char "/" abs_path then abs_path else abs_path +:+ "/")
               +:+ "bundle" +:+ "." +:+ "zip") ∧
    (Py.startswith "/" "bundle" = true → zipfile = "bundle" +:+ "." +:+ "zip") ∧
    (NoDup paths →
     (length (matching zipfile tree paths) ≤ 1)%nat ∧
     (Some zipfile ∈ paths → length (matching zipfile tree paths) = 1)).
Proof.
  refine (archive_added Demo.step (Scenario.archive_as "bundle") Demo.files
            (PStr "A_root") ["A_file1.txt"] "bundle" "application/zip" "zip"
            Scenario.archived.1.1.2 Scenario.archived.1.2 Scenario.archived.2
            _ _ _ _ _ _);
    vm_compute; reflexivity.
Defined.

Lemma archive_without_path_witness :
  (∃ e, (exec Demo.step __archive Scenario.archive_nowhere Demo.files).1.1.1 = Exc e) ∧
  (exec Demo.step __archive Scenario.archive_nowhere Demo.files).1.1.1 =
    Exc (UnboundLocalError "zipfile").
Proof.
  assert (truthy None = false) as Hfalsy by reflexivity.
  destruct (archive_without_path Demo.step Scenario.archive_nowhere Demo.files Demo.files
              (PStr "A_nothing") (PList ["A_file1.txt"]) (PStr "bundle")
              (PStr "application/zip") Demo.A None
              eq_refl eq_refl eq_refl eq_refl eq_refl eq_refl Hfalsy) as [Hexc Hname].
  split; [exact Hexc|].
  refine (Hname [Scenario.file1] Demo.files _ (VStr "A_file1.txt")
            (Some "/srv/A/file1.txt") Demo.files _ _); vm_compute; reflexivity.
Defined.

(** [extract] of [bundle.zip]: one [mkdir] of [bundle] under the root
    of A, extraction into [/srv/A/bundle], and the new folder added. *)
Example extract_bundle_run :
  Scenario.extracted =
    (Ok tt,
     with_response (λ _, {[ "added" := VList [VDict (Demo.info Demo.A "bundle")] ]})
       Scenario.extract_bundle,
     Scenario.with_bundle ++ ["/srv/A/bundle"],
     [ Entry (on_volume Demo.A (get_info (VStr "A_bundle.zip"))) (Returned Scenario.bundle);
       find_entry Demo.A (VStr "A_bundle.zip") (Some "/srv/A/bundle.zip");
       find_entry Demo.A (VStr "A_root") (Some "/srv/A");
       Entry (on_volume Demo.A (mkdir (VStr "bundle") (VStr "A_root")))
         (Returned (VDict (Demo.info Demo.A "bundle")));
       Entry (extract_archive "/srv/A/bundle.zip" "/srv/A/bundle") (Returned tt);
       Entry (on_volume Demo.A (get_tree (VStr "A_root") false false))
         (Returned [Scenario.file1; Scenario.bundle; Demo.info Demo.A "bundle"]);
       find_entry Demo.A (VStr "A_file1.txt") (Some "/srv/A/file1.txt");
       find_entry Demo.A (VStr "A_bundle.zip") (Some "/srv/A/bundle.zip");
       find_entry Demo.A (VStr "A_bundle") (Some "/srv/A/bundle") ]).
Proof. vm_compute; reflexivity. Qed.

Lemma extract_added_witness :
  ∃ v archive_file path archive_name parent_path parent_volume made
    tree hashes paths,
    let phash := default VNone (archive_file !! "phash") in
    let folder_path := Py.path_join parent_path archive_name in
    get_volume Scenario.extract_bundle (param_value (PStr "A_bundle.zip")) = Ok v ∧
    get_volume Scenario.extract_bundle phash = Ok parent_volume ∧
    (∃ dir tail,
       path = dir +:+ archive_name +:+ tail ∧
       (dir = "" ∨ Py.endswith_char "/" dir = true) ∧
       Py.contains "/" archive_name = false ∧
       Py.contains "." archive_name = false ∧
       Py.contains "/" tail = false ∧
       (tail = "" ∨ Py.startswith "." tail = true)) ∧
    Forall2 (λ (n : node) h, n !! "hash" = Some h) tree hashes ∧
    length paths = length tree ∧
    Scenario.extracted.2 =
      [ Entry (on_volume v (get_info (param_value (PStr "A_bundle.zip"))))
          (Returned archive_file);
        find_entry v (param_value (PStr "A_bundle.zip")) (Some path);
        find_entry v phash (Some parent_path);
        Entry (on_volume parent_volume (mkdir (VStr archive_name) phash))
          (Returned made);
        Entry (extract_archive path folder_path) (Returned tt);
        Entry (on_volume v (get_tree phash false false)) (Returned tree) ]
      ++ zip_with (find_entry v) hashes paths ∧
    List.filter is_mkdir Scenario.extracted.2 =
      [ Entry (on_volume parent_volume (mkdir (VStr archive_name) phash))
          (Returned made) ] ∧
    folder_path =
      (if Py.is_empty parent_path || Py.endswith_char "/" parent_path
       then parent_path else parent_path +:+ "/") +:+ archive_name ∧
    response Scenario.extracted.1.1.2 =
      <[ "added" := VList (VDict <$> matching folder_path tree paths) ]>
        (response Scenario.extract_bundle).
Proof.
  refine (extract_added Demo.step Scenario.extract_bundle Scenario.with_bundle
            (PStr "A_bundle.zip")
            Scenario.extracted.1.1.2 Scenario.extracted.1.2 Scenario.extracted.2
            _ _);
    vm_compute; reflexivity.
Defined.



(** A request without [target] is redacted all the same when a
    filesystem volume is mounted under the empty id, which occurs in
    the empty string: the same [rm] on such a volume, with the root
    [/srv]. *)
Example run_rm_redacted_under_empty_id :
  (exec Demo.step (run "/srv" Scenario.rm_unnamed_request)
     (__init__ [Scenario.unnamed]) []).1.1.1 =
    Ok (200%Z, {[ "Content-type" := "application/json" ]},
        <[ "error" := VStr "No such file or directory: ...//_gone.txt" ]>
          {[ "removed" := VList [] ]}).
Proof. vm_compute; reflexivity. Qed.
